(** * kukufm-bot: the rate-limited request pipeline of [bot.py]

    A shallow embedding of [sanitize_filename], of the rate-limit table
    [user_last_request] and of the handler [handle_message], followed by
    the properties of the pipeline that the specification states.

    Conventions of the embedding:
    - a Python [str] is the list of its Unicode code points;
    - [time.time()] is a rational number (every finite double is one, and
      Python compares a double with an [int] exactly); the subtraction of
      two timestamps is taken exact;
    - the collaborators the handler calls (the resolver, the HTTP client,
      the reply channel) are opaque: each call answers with a value or
      raises an [Exception], as the environment decides;
    - every call the handler makes is recorded, in order, in a trace. *)

From Stdlib Require Import ZArith QArith Lqa Ascii String DecimalString.
From stdpp Require Import gmap list.

Local Open Scope Z_scope.

(** ** Python strings *)

Module Str.

(** A [str] as the sequence of its code points. *)
Abbreviation t := (list N).

Definition cp (c : ascii) : N := N_of_ascii c.

(** An ASCII literal as a [str]. *)
Definition lit (s : string) : t := cp <$> list_ascii_of_string s.

(** [str.isspace] on one code point: the Unicode white-space code points. *)
Definition isspace (c : N) : bool :=
  ((9 <=? c) && (c <=? 13) || (28 <=? c) && (c <=? 32)
   || (c =? 133) || (c =? 160) || (c =? 5760)
   || (8192 <=? c) && (c <=? 8202)
   || (c =? 8232) || (c =? 8233) || (c =? 8239) || (c =? 8287)
   || (c =? 12288))%N.

Fixpoint lstrip (s : t) : t :=
  match s with
  | c :: s' => if isspace c then lstrip s' else s
  | [] => []
  end.

(** [s.strip()]: white space removed at both ends. *)
Definition strip (s : t) : t := reverse (lstrip (reverse (lstrip s))).

(** [s.startswith(p)]. *)
Fixpoint startswith (s p : t) : bool :=
  match p, s with
  | [], _ => true
  | _ :: _, [] => false
  | a :: p', b :: s' => (a =? b)%N && startswith s' p'
  end.

(** [str(n)], also the formatting of an [int] in an f-string. *)
Definition of_int (n : Z) : t := lit (NilZero.string_of_int (Z.to_int n)).

End Str.

(** ** Helpers *)

(** The character class of the regular expression: the nine characters
    less-than, greater-than, colon, double quote, slash, backslash, bar,
    question mark and star. *)
Definition forbidden : list N :=
  Str.cp <$> ["<"; ">"; ":"; "034"; "/"; "\"; "|"; "?"; "*"]%char.

Definition is_forbidden (c : N) : bool := bool_decide (c ∈ forbidden).

Definition underscore : N := Str.cp "_".

(** [re.sub] with that class and the replacement underscore: every match
    is one character of the class, replaced by one underscore. *)
Definition re_sub_forbidden (filename : Str.t) : Str.t :=
  (fun c => if is_forbidden c then underscore else c) <$> filename.

Definition sanitize_filename (filename : Str.t) : Str.t :=
  let clean := re_sub_forbidden filename in
  take 100 clean.

(** ** Config from environment *)

Record config := {
  RATE_LIMIT_SECONDS : Z;
  MAX_FILE_SIZE_MB : Z
}.

(** ** Rate limiting *)

(** [user_last_request = defaultdict(float)]: user id to the arrival time of
    the last request that passed the rate check. *)
Abbreviation limiter := (gmap Z Q).

(** [d[k]] on a [defaultdict(float)]: a missing key is first inserted with
    [float()], that is [0.0], and that value is returned. *)
Definition getitem (d : limiter) (k : Z) : Q * limiter :=
  match d !! k with
  | Some v => (v, d)
  | None => (0%Q, <[k := 0%Q]> d)
  end.

(** [x < y] on numbers. *)
Definition Qltb (x y : Q) : bool := negb (Qle_bool y x).

(** ** Exceptions and the collaborators *)

(** The outcome of a call: a value, or an [Exception] with its [str(e)]. *)
Inductive result (A : Type) : Type :=
| Ok (a : A)
| Raise (e : Str.t).
Arguments Ok {A} a.
Arguments Raise {A} e.

(** What the resolver returns: the keys of the info dict the handler reads,
    [None] for a key that is absent. *)
Record info := {
  info_url : option Str.t;
  info_title : option Str.t
}.

(** The response of [requests.get(..., stream=True)]: the body is not read
    until [content] is. *)
Record response := {
  raise_for_status : result unit;
  content_length : option Str.t;
  content : result (list Byte.byte)
}.

(** The [BytesIO] handed to [reply_audio], with its [name]. *)
Record audio := {
  audio_name : Str.t;
  audio_data : list Byte.byte
}.

(** The texts the handler replies with. *)
Inductive message : Type :=
| PleaseWait
| InvalidUrl
| CouldNotFetch
| FileTooLarge (mb : Z)
| ErrorReply (e : Str.t).

Definition hourglass : N := 9203.
Definition cross_mark : N := 10060.
Definition check_mark : N := 9989.

Definition render (m : message) : Str.t :=
  match m with
  | PleaseWait =>
      hourglass :: Str.lit " Please wait before making another request."
  | InvalidUrl => cross_mark :: Str.lit " Please send a valid URL."
  | CouldNotFetch => cross_mark :: Str.lit " Could not fetch audio."
  | FileTooLarge mb =>
      cross_mark :: Str.lit " File too large (> " ++ Str.of_int mb
        ++ Str.lit "MB)."
  | ErrorReply e => cross_mark :: Str.lit " Error: " ++ e
  end.

(** Two messages of one kind, with the same text for an error reply. *)
Definition same_kind (m m' : message) : Prop :=
  match m, m' with
  | PleaseWait, PleaseWait | InvalidUrl, InvalidUrl
  | CouldNotFetch, CouldNotFetch | FileTooLarge _, FileTooLarge _ => True
  | ErrorReply e, ErrorReply e' => e = e'
  | _, _ => False
  end.

(** The records the handler logs. *)
Inductive log_record : Type :=
| LogInfo (text : Str.t)
| LogError (text : Str.t).

Definition sent_audio (title : Str.t) : log_record :=
  LogInfo (check_mark :: Str.lit " Sent audio: " ++ title).

Definition error_record (e : Str.t) : log_record :=
  LogError (Str.lit "Error: " ++ e).

(** The collaborators of one request: how each call of the handler answers.
    [download_audio_info] returns [None] for a falsy result. *)
Record env := {
  download_audio_info : Str.t -> result (option info);
  requests_get : Str.t -> result response;
  reply_text : message -> result unit;
  reply_audio : audio -> result unit
}.

(** One inbound update: [update.effective_user.id], [update.message.text]
    and the value [time.time()] returns when the handler starts. *)
Record update := {
  user_id : Z;
  text : Str.t;
  current_time : Q
}.

(** ** The trace of a run *)

Inductive event : Type :=
| EvResolve (url : Str.t)
| EvGet (url : Str.t)
| EvContent
| EvReplyText (m : message)
| EvReplyAudio (a : audio)
| EvLog (r : log_record).

(** A computation: the calls made so far, and a value or a raised
    exception. *)
Definition M (A : Type) : Type := list event * result A.

#[global] Instance M_ret : MRet M := fun A a => ([], Ok a).

#[global] Instance M_bind : MBind M := fun A B f m =>
  match m with
  | (tr, Ok a) => let '(tr', r) := f a in (tr ++ tr', r)
  | (tr, Raise e) => (tr, Raise e)
  end.

(** A call that leaves [ev] in the trace. *)
Definition call {A} (ev : event) (r : result A) : M A := ([ev], r).

(** A computation without a recorded call. *)
Definition quiet {A} (r : result A) : M A := ([], r).

(** [try: body except Exception as e: handler(e)]. *)
Definition try_except (body : M unit) (handler : Str.t -> M unit) : M unit :=
  match body with
  | (tr, Ok x) => (tr, Ok x)
  | (tr, Raise e) => let '(tr', r) := handler e in (tr ++ tr', r)
  end.

Definition send_text (E : env) (m : message) : M unit :=
  call (EvReplyText m) (reply_text E m).

Definition send_audio (E : env) (a : audio) : M unit :=
  call (EvReplyAudio a) (reply_audio E a).

Definition log (r : log_record) : M unit := call (EvLog r) (Ok ()).

(** The [except] clause: the error is logged, then reported to the user. *)
Definition report_error (E : env) (e : Str.t) : M unit :=
  _ ← log (error_record e);
  send_text E (ErrorReply e).

(** ** Handlers *)

Section Pipeline.

(** Python's builtin [int] on a [str]. *)
Variable int : Str.t -> result Z.

Variable cfg : config.

(** The size test: a header that is absent or empty is falsy and skips
    the comparison. *)
Definition too_large (content_length : option Str.t) : M bool :=
  match content_length with
  | None => mret false
  | Some [] => mret false
  | Some s =>
      n ← quiet (int s);
      mret (MAX_FILE_SIZE_MB cfg * 1024 * 1024 <? n)
  end.

(** The body of the [try] block. *)
Definition fetch_and_send (E : env) (url : Str.t) : M unit :=
  info ← call (EvResolve url) (download_audio_info E url);
  match info ≫= info_url with
  | None => send_text E CouldNotFetch
  | Some audio_url =>
      let title :=
        sanitize_filename (default (Str.lit "audio") (info ≫= info_title)) in
      response ← call (EvGet audio_url) (requests_get E audio_url);
      _ ← quiet (raise_for_status response);
      big ← too_large (content_length response);
      if big : bool then send_text E (FileTooLarge (MAX_FILE_SIZE_MB cfg))
      else
        data ← call EvContent (content response);
        let audio_data :=
          {| audio_name := title ++ Str.lit ".mp3"; audio_data := data |} in
        _ ← send_audio E audio_data;
        log (sent_audio title)
  end.

Definition handle_message (E : env) (d : limiter) (u : update)
  : limiter * M unit :=
  let '(last, d) := getitem d (user_id u) in
  if Qltb (current_time u - last) (inject_Z (RATE_LIMIT_SECONDS cfg))
  then (d, send_text E PleaseWait)
  else
    let d := <[user_id u := current_time u]> d in
    let url := Str.strip (text u) in
    if negb (Str.startswith url (Str.lit "http"))
    then (d, send_text E InvalidUrl)
    else
      (d, try_except (fetch_and_send E url) (report_error E)).

End Pipeline.

(** ** Observing a run *)

(** The time the rate check reads for a user: the entry, or the default. *)
Definition last_request (d : limiter) (k : Z) : Q := default 0%Q (d !! k).

(** What went out on the reply channel. *)
Inductive reply : Type :=
| TextReply (m : message)
| AudioReply (a : audio).

Definition replies (tr : list event) : list reply :=
  omap (fun ev =>
          match ev with
          | EvReplyText m => Some (TextReply m)
          | EvReplyAudio a => Some (AudioReply a)
          | _ => None
          end) tr.

Definition logs (tr : list event) : list log_record :=
  omap (fun ev => match ev with EvLog r => Some r | _ => None end) tr.

(** The replies of the four gates that reject a request. *)
Definition is_rejection (r : reply) : bool :=
  match r with
  | TextReply (PleaseWait | InvalidUrl | CouldNotFetch | FileTooLarge _) => true
  | TextReply (ErrorReply _) | AudioReply _ => false
  end.

(** A run that the rate check rejected: its only call is the wait reply. *)
Definition rate_limited (out : M unit) : bool :=
  match out.1 with
  | [EvReplyText PleaseWait] => true
  | _ => false
  end.

Definition resolver_called (tr : list event) : Prop :=
  exists url, EvResolve url ∈ tr.

(** The file name the audio is sent under. *)
Definition audio_name_of (i : info) : Str.t :=
  sanitize_filename (default (Str.lit "audio") (info_title i))
    ++ Str.lit ".mp3".

Section Dispatch.

Variable int : Str.t -> result Z.
Variable cfg : config.

(** The updates of a session handled one after the other on the shared
    table, each with the collaborators it meets; an exception that leaves
    the handler does not stop the dispatch of the next update. *)
Fixpoint run (d : limiter) (reqs : list (env * update))
  : list (update * M unit) :=
  match reqs with
  | [] => []
  | (E, u) :: reqs' =>
      let '(d', out) := handle_message int cfg E d u in
      (u, out) :: run d' reqs'
  end.

(** The request passed the rate check and the URL test, and the resolver
    and the HTTP client answered with the response [r] for the stream
    [audio_url] of [i]. *)
Definition fetched (E : env) (d : limiter) (u : update)
    (i : info) (audio_url : Str.t) (r : response) : Prop :=
  rate_limited (handle_message int cfg E d u).2 = false
  /\ Str.startswith (Str.strip (text u)) (Str.lit "http") = true
  /\ download_audio_info E (Str.strip (text u)) = Ok (Some i)
  /\ info_url i = Some audio_url
  /\ requests_get E audio_url = Ok r
  /\ raise_for_status r = Ok ().

(** The resolver or the HTTP client raises [e] while [url] is handled. *)
Definition collaborator_raises (E : env) (url e : Str.t) : Prop :=
  download_audio_info E url = Raise e
  \/ exists i audio_url,
      download_audio_info E url = Ok (Some i)
      /\ info_url i = Some audio_url
      /\ (requests_get E audio_url = Raise e
          \/ exists r,
              requests_get E audio_url = Ok r
              /\ (raise_for_status r = Raise e
                  \/ (raise_for_status r = Ok ()
                      /\ too_large int cfg (content_length r) = ([], Ok false)
                      /\ content r = Raise e))).

(** The table a session leaves behind. *)
Fixpoint table_after (d : limiter) (reqs : list (env * update)) : limiter :=
  match reqs with
  | [] => d
  | (E, u) :: reqs' => table_after (handle_message int cfg E d u).1 reqs'
  end.

(** The arrival times of the requests of user [k] that passed the rate
    check, in the order of the session. *)
Definition passed_times (k : Z) (outs : list (update * M unit)) : list Q :=
  omap (fun '(u, out) =>
          if bool_decide (user_id u = k) && negb (rate_limited out)
          then Some (current_time u) else None) outs.

(** The HTTP client fails on [audio_url] before the body is read: the
    request, the status test or the parsing of the content-length header
    raises [e]. *)
Definition fetch_fails (E : env) (audio_url e : Str.t) : Prop :=
  requests_get E audio_url = Raise e
  \/ exists r,
      requests_get E audio_url = Ok r
      /\ (raise_for_status r = Raise e
          \/ (raise_for_status r = Ok ()
              /\ too_large int cfg (content_length r) = ([], Raise e))).

(** The response [r] arrived for the stream of [i] and passed the status
    test. *)
Definition answered (E : env) (url : Str.t)
    (i : info) (audio_url : Str.t) (r : response) : Prop :=
  download_audio_info E url = Ok (Some i)
  /\ info_url i = Some audio_url
  /\ requests_get E audio_url = Ok r
  /\ raise_for_status r = Ok ().

(** The seven ways through the [try] block, each with the calls it makes
    and the way it ends. *)
Inductive body_path (E : env) (url : Str.t) : M unit -> Prop :=
| PathResolverRaises e :
    download_audio_info E url = Raise e ->
    body_path E url ([EvResolve url], Raise e)
| PathNoStream o :
    download_audio_info E url = Ok o ->
    o ≫= info_url = None ->
    body_path E url
      ([EvResolve url; EvReplyText CouldNotFetch], reply_text E CouldNotFetch)
| PathFetchFails i audio_url e :
    download_audio_info E url = Ok (Some i) ->
    info_url i = Some audio_url ->
    fetch_fails E audio_url e ->
    body_path E url ([EvResolve url; EvGet audio_url], Raise e)
| PathTooLarge i audio_url r :
    answered E url i audio_url r ->
    too_large int cfg (content_length r) = ([], Ok true) ->
    body_path E url
      ([EvResolve url; EvGet audio_url;
        EvReplyText (FileTooLarge (MAX_FILE_SIZE_MB cfg))],
       reply_text E (FileTooLarge (MAX_FILE_SIZE_MB cfg)))
| PathBodyFails i audio_url r e :
    answered E url i audio_url r ->
    too_large int cfg (content_length r) = ([], Ok false) ->
    content r = Raise e ->
    body_path E url ([EvResolve url; EvGet audio_url; EvContent], Raise e)
| PathAudioFails i audio_url r data e :
    answered E url i audio_url r ->
    too_large int cfg (content_length r) = ([], Ok false) ->
    content r = Ok data ->
    reply_audio E {| audio_name := audio_name_of i; audio_data := data |}
    = Raise e ->
    body_path E url
      ([EvResolve url; EvGet audio_url; EvContent;
        EvReplyAudio {| audio_name := audio_name_of i; audio_data := data |}],
       Raise e)
| PathAudioSent i audio_url r data :
    answered E url i audio_url r ->
    too_large int cfg (content_length r) = ([], Ok false) ->
    content r = Ok data ->
    reply_audio E {| audio_name := audio_name_of i; audio_data := data |}
    = Ok () ->
    body_path E url
      ([EvResolve url; EvGet audio_url; EvContent;
        EvReplyAudio {| audio_name := audio_name_of i; audio_data := data |};
        EvLog (sent_audio
                 (sanitize_filename
                    (default (Str.lit "audio") (info_title i))))],
       Ok ()).

End Dispatch.

(** How the reply channel answered a send. *)
Definition send_outcome (E : env) (r : reply) : result unit :=
  match r with
  | TextReply m => reply_text E m
  | AudioReply a => reply_audio E a
  end.

(** The calls to the collaborators other than the reply channel. *)
Definition external_calls (tr : list event) : list event :=
  omap (fun ev =>
          match ev with
          | EvResolve _ | EvGet _ | EvContent => Some ev
          | _ => None
          end) tr.

(** ** Configuration and start-up *)

Module Startup.

(** [os.environ]. *)
Abbreviation environ := (gmap (list N) (list N)).

Definition placeholder : Str.t := Str.lit "YOUR_TELEGRAM_BOT_TOKEN".

(** [os.getenv(key, dflt)] with a [str] default. *)
Definition getenv (env : environ) (key dflt : Str.t) : Str.t :=
  default dflt (env !! key).

(** [int(os.getenv(key, dflt))] with an [int] default: [int] of an [int]
    is that [int]. *)
Definition getenv_int (int : Str.t -> result Z) (env : environ)
    (key : Str.t) (dflt : Z) : result Z :=
  match env !! key with
  | Some s => int s
  | None => Ok dflt
  end.

(** The module-level settings. *)
Record settings := {
  TOKEN : Str.t;
  limits : config;
  COOKIES_FILE : option Str.t
}.

(** The assignments at import time, in their order; [cookies] is what
    [os.path.exists] answers for the cookie file. An exception here ends
    the process before [main] is reached. *)
Definition load (int : Str.t -> result Z) (env : environ) (cookies : bool)
  : result settings :=
  let token := getenv env (Str.lit "BOT_TOKEN") placeholder in
  match getenv_int int env (Str.lit "RATE_LIMIT_SECONDS") 10 with
  | Raise e => Raise e
  | Ok rate =>
      match getenv_int int env (Str.lit "MAX_FILE_SIZE_MB") 50 with
      | Raise e => Raise e
      | Ok size =>
          Ok {| TOKEN := token;
                limits := {| RATE_LIMIT_SECONDS := rate;
                             MAX_FILE_SIZE_MB := size |};
                COOKIES_FILE :=
                  if cookies then Some (Str.lit "cookies.txt") else None |}
      end
  end.

(** What [main] sets up, in order, once the token test is passed. *)
Inductive call : Type :=
| SignalInt
| SignalTerm
| HealthThread
| BuildApplication (token : Str.t)
| AddStartCommand
| AddTextHandler
| LogStarted
| RunPolling.

Inductive outcome : Type :=
| Refused (printed : Str.t) (status : Z)
| Serving (calls : list call).

Definition refusal : Str.t :=
  cross_mark
    :: Str.lit " Please set your actual BOT_TOKEN in environment variables!".

Definition main (s : settings) : outcome :=
  if bool_decide (TOKEN s = placeholder)
  then Refused refusal 1
  else Serving [SignalInt; SignalTerm; HealthThread;
                BuildApplication (TOKEN s);
                AddStartCommand; AddTextHandler; LogStarted; RunPolling].

End Startup.

(** ** Sample data *)

Module Sample.

(** [int] on a plain decimal literal, the headers the samples carry. *)
Fixpoint digits (acc : Z) (s : Str.t) : result Z :=
  match s with
  | [] => Ok acc
  | c :: s' =>
      if ((48 <=? c) && (c <=? 57))%N
      then digits (10 * acc + Z.of_N (c - 48)) s'
      else Raise (Str.lit "invalid literal for int() with base 10")
  end.

Definition int (s : Str.t) : result Z :=
  match s with
  | [] => Raise (Str.lit "invalid literal for int() with base 10")
  | _ => digits 0 s
  end.

Definition cfg : config :=
  {| RATE_LIMIT_SECONDS := 10; MAX_FILE_SIZE_MB := 50 |}.

(** A window longer than the epoch time of the request. *)
Definition cfg_long : config :=
  {| RATE_LIMIT_SECONDS := 2000000000; MAX_FILE_SIZE_MB := 50 |}.

(** No audio may be sent at all. *)
Definition cfg_tiny : config :=
  {| RATE_LIMIT_SECONDS := 10; MAX_FILE_SIZE_MB := 0 |}.

Definition now : Q := inject_Z 1762300000.

Definition stream : Str.t := Str.lit "https://cdn.example/a.mp3".

Definition song : info :=
  {| info_url := Some stream; info_title := Some (Str.lit "a/b:c") |}.

Definition body : list Byte.byte := [Byte.x49; Byte.x44; Byte.x33].

Definition resp (header : option Str.t) : response :=
  {| raise_for_status := Ok (); content_length := header;
     content := Ok body |}.

(** Every collaborator answers; the response carries [header]. *)
Definition good (header : option Str.t) : env :=
  {| download_audio_info := fun _ => Ok (Some song);
     requests_get := fun _ => Ok (resp header);
     reply_text := fun _ => Ok ();
     reply_audio := fun _ => Ok () |}.

(** The resolver raises. *)
Definition no_resolver : env :=
  {| download_audio_info := fun _ => Raise (Str.lit "Unsupported URL");
     requests_get := fun _ => Ok (resp None);
     reply_text := fun _ => Ok ();
     reply_audio := fun _ => Ok () |}.

(** The audio cannot be delivered. *)
Definition no_audio : env :=
  {| download_audio_info := fun _ => Ok (Some song);
     requests_get := fun _ => Ok (resp None);
     reply_text := fun _ => Ok ();
     reply_audio := fun _ => Raise (Str.lit "Timed out") |}.

Definition upd (t : Q) (s : string) : update :=
  {| user_id := 7; text := Str.lit s; current_time := t |}.

Definition link : string := " https://kukufm.com/show/1 ".

(** Three requests of one user, five and eleven seconds after the first:
    the first and the third pass. *)
Definition session : list (env * update) :=
  [(good None, upd now link);
   (good None, upd (now + 5) link);
   (good None, upd (now + 11) link)].

(** A title of 109 characters: the nine characters of the class, then a
    hundred letters. *)
Definition dirty : Str.t :=
  Str.lit "<>:" ++ [34%N] ++ Str.lit "/\|?*" ++ replicate 100 (Str.cp "a").

(** The resolver raises, and the user blocked the bot. *)
Definition offline : env :=
  {| download_audio_info := fun _ => Raise (Str.lit "Unsupported URL");
     requests_get := fun _ => Ok (resp None);
     reply_text := fun _ => Raise (Str.lit "Forbidden");
     reply_audio := fun _ => Ok () |}.

(** The user blocked the bot: no text reply gets through. *)
Definition blocked : env :=
  {| download_audio_info := fun _ => Ok (Some song);
     requests_get := fun _ => Ok (resp None);
     reply_text := fun _ => Raise (Str.lit "Forbidden");
     reply_audio := fun _ => Ok () |}.

(** The resolver finds nothing. *)
Definition no_stream : env :=
  {| download_audio_info := fun _ => Ok None;
     requests_get := fun _ => Ok (resp None);
     reply_text := fun _ => Ok ();
     reply_audio := fun _ => Ok () |}.

(** The limiter switched off. *)
Definition cfg_off : config :=
  {| RATE_LIMIT_SECONDS := 0; MAX_FILE_SIZE_MB := 50 |}.

(** Only the token is set. *)
Definition token_only : Startup.environ :=
  {[ Str.lit "BOT_TOKEN" := Str.lit "123:abc" ]}.

(** A response whose header is one byte over, and one exactly at, the
    threshold of 50 MB. *)
Definition over : option Str.t := Some (Str.lit "52428801").
Definition exact : option Str.t := Some (Str.lit "52428800").

End Sample.

(** * Properties *)

(** ** [sanitize_filename] *)

Lemma underscore_allowed : is_forbidden underscore = false.
Proof. reflexivity. Qed.

Lemma replaced_allowed (c : N) :
  is_forbidden (if is_forbidden c then underscore else c) = false.
Proof. destruct (is_forbidden c) eqn:Hc; [apply underscore_allowed | exact Hc]. Qed.

Lemma re_sub_clean (s : Str.t) :
  Forall (fun c => is_forbidden c = false) s -> re_sub_forbidden s = s.
Proof.
  unfold re_sub_forbidden.
  induction 1 as [|c s Hc _ IH]; [reflexivity|].
  rewrite fmap_cons, Hc. f_equal. exact IH.
Qed.

Lemma re_sub_allowed (s : Str.t) :
  Forall (fun c => is_forbidden c = false) (re_sub_forbidden s).
Proof.
  unfold re_sub_forbidden. apply Forall_fmap, Forall_true.
  intros c. apply replaced_allowed.
Qed.

Lemma sanitize_allowed (s : Str.t) :
  Forall (fun c => is_forbidden c = false) (sanitize_filename s).
Proof. unfold sanitize_filename. apply Forall_take, re_sub_allowed. Qed.

Lemma sanitize_lookup (s : Str.t) (i : nat) :
  (i < 100)%nat ->
  sanitize_filename s !! i
  = (fun c => if is_forbidden c then underscore else c) <$> s !! i.
Proof.
  intros Hi. unfold sanitize_filename, re_sub_forbidden.
  rewrite lookup_take_lt by exact Hi. apply list_lookup_fmap.
Qed.

(** C4: [sanitize_filename] replaces each of the nine characters
    less-than (60), greater-than (62), colon (58), double quote (34),
    slash (47), backslash (92), bar (124), question mark (63) and star
    (42) by the underscore (95), keeps every other character, and cuts the
    result after 100 characters; so the output has at most 100 characters
    and none of the nine, sanitizing twice is sanitizing once, and an
    input of at most 100 characters without any of the nine comes back
    unchanged. *)
Theorem sanitize_filename_spec (s : Str.t) :
  let class : list N := [60; 62; 58; 34; 47; 92; 124; 63; 42]%N in
  length (sanitize_filename s) = Nat.min 100 (length s)
  /\ (forall (i : nat) (c : N),
        (i < 100)%nat -> s !! i = Some c -> c ∈ class ->
        sanitize_filename s !! i = Some 95%N)
  /\ (forall (i : nat) (c : N),
        (i < 100)%nat -> s !! i = Some c -> c ∉ class ->
        sanitize_filename s !! i = Some c)
  /\ (forall i : nat, (100 <= i)%nat -> sanitize_filename s !! i = None)
  /\ (length (sanitize_filename s) <= 100)%nat
  /\ (forall c, c ∈ sanitize_filename s -> c ∉ class)
  /\ sanitize_filename (sanitize_filename s) = sanitize_filename s
  /\ ((forall c, c ∈ s -> c ∉ class) -> (length s <= 100)%nat ->
        sanitize_filename s = s).
Proof.
  intros class.
  assert (forbidden = class) as Hclass by reflexivity.
  assert (underscore = 95%N) as Hunderscore by reflexivity.
  assert (length (sanitize_filename s) = Nat.min 100 (length s)) as Hlen.
  { unfold sanitize_filename, re_sub_forbidden.
    rewrite length_take, length_fmap. reflexivity. }
  split; [exact Hlen|]. split; [|split; [|split; [|split; [|split; [|split]]]]].
  - intros i c Hi Hc Hin. rewrite (sanitize_lookup s i Hi), Hc.
    cbn [fmap option_fmap option_map]. unfold is_forbidden.
    rewrite bool_decide_eq_true_2 by (rewrite Hclass; exact Hin).
    rewrite Hunderscore. reflexivity.
  - intros i c Hi Hc Hout. rewrite (sanitize_lookup s i Hi), Hc.
    cbn [fmap option_fmap option_map]. unfold is_forbidden.
    rewrite bool_decide_eq_false_2 by (rewrite Hclass; exact Hout).
    reflexivity.
  - intros i Hi. apply lookup_ge_None. lia.
  - lia.
  - intros c Hc Hin.
    pose proof (sanitize_allowed s) as Hall.
    rewrite Forall_forall in Hall. specialize (Hall c Hc).
    unfold is_forbidden in Hall. apply bool_decide_eq_false in Hall.
    rewrite Hclass in Hall. tauto.
  - unfold sanitize_filename at 1.
    rewrite re_sub_clean by apply sanitize_allowed.
    unfold sanitize_filename. rewrite take_take. f_equal.
  - intros Hclean Hlong. unfold sanitize_filename.
    rewrite re_sub_clean.
    + apply take_ge. lia.
    + apply Forall_forall. intros c Hc.
      unfold is_forbidden. apply bool_decide_eq_false.
      rewrite Hclass. exact (Hclean c Hc).
Qed.

(** ** The reply texts *)

(** X24: the five kinds of reply have different texts, and the text of an
    error reply determines the message it carries. *)
Lemma render_kind (m m' : message) : render m = render m' -> same_kind m m'.
Proof.
  destruct m, m'; intros H; try exact I; try discriminate H.
  injection H as H. exact H.
Qed.

(** ** The rate-limit table *)

Lemma Qltb_false (x y : Q) : Qltb x y = false <-> (y <= x)%Q.
Proof.
  unfold Qltb. rewrite negb_false_iff. apply Qle_bool_iff.
Qed.

Lemma Qltb_true (x y : Q) : Qltb x y = true <-> (x < y)%Q.
Proof.
  unfold Qltb. rewrite negb_true_iff, <- not_true_iff_false, Qle_bool_iff.
  split; [apply Qnot_le_lt | apply Qlt_not_le].
Qed.

Lemma getitem_value (d : limiter) (k : Z) : (getitem d k).1 = last_request d k.
Proof. unfold getitem, last_request. destruct (d !! k); reflexivity. Qed.

Lemma getitem_lookup_ne (d : limiter) (k k' : Z) :
  k <> k' -> (getitem d k).2 !! k' = d !! k'.
Proof.
  intros Hne. unfold getitem. destruct (d !! k); [reflexivity|].
  apply lookup_insert_ne, Hne.
Qed.

Lemma getitem_last_request (d : limiter) (k k' : Z) :
  last_request (getitem d k).2 k' = last_request d k'.
Proof.
  unfold last_request. destruct (decide (k = k')) as [<-|Hne].
  - unfold getitem. destruct (d !! k) as [v|] eqn:Hk; simpl.
    + rewrite Hk. reflexivity.
    + rewrite lookup_insert_eq. reflexivity.
  - rewrite getitem_lookup_ne by exact Hne. reflexivity.
Qed.

Lemma getitem_present (d : limiter) (k : Z) (v : Q) :
  d !! k = Some v -> getitem d k = (v, d).
Proof. intros H. unfold getitem. rewrite H. reflexivity. Qed.

Lemma insert_getitem (d : limiter) (k : Z) (v : Q) :
  <[k := v]> (getitem d k).2 = <[k := v]> d.
Proof.
  unfold getitem. destruct (d !! k); [reflexivity|]. apply insert_insert_eq.
Qed.

(** ** The handler, gate by gate *)

Section Properties.

Variable int : Str.t -> result Z.
Variable cfg : config.

Abbreviation handle := (handle_message int cfg).

Lemma fetch_and_send_resolves (E : env) (url : Str.t) :
  exists tr r, fetch_and_send int cfg E url = (EvResolve url :: tr, r).
Proof.
  unfold fetch_and_send, call, mbind, M_bind.
  destruct (download_audio_info E url) as [i|e]; [|eauto].
  match goal with |- context [let '(_, _) := ?c in _] => destruct c end.
  simpl. eauto.
Qed.

Lemma try_except_resolves (E : env) (url : Str.t) (h : Str.t -> M unit) :
  exists tr r,
    try_except (fetch_and_send int cfg E url) h = (EvResolve url :: tr, r).
Proof.
  destruct (fetch_and_send_resolves E url) as (tr & r & ->).
  unfold try_except. destruct r as [[]|e]; [eauto|].
  destruct (h e). simpl. eauto.
Qed.

(** The rate check decides the branch, and the table that is left. *)
Lemma handle_message_limited (E : env) (d : limiter) (u : update) :
  Qltb (current_time u - last_request d (user_id u))
       (inject_Z (RATE_LIMIT_SECONDS cfg)) = true ->
  handle E d u = ((getitem d (user_id u)).2, send_text E PleaseWait).
Proof.
  intros H. unfold handle_message.
  rewrite <- getitem_value in H.
  destruct (getitem d (user_id u)) as [last d']. simpl in H.
  rewrite H. reflexivity.
Qed.

Lemma handle_message_passed (E : env) (d : limiter) (u : update) :
  Qltb (current_time u - last_request d (user_id u))
       (inject_Z (RATE_LIMIT_SECONDS cfg)) = false ->
  handle E d u =
    (<[user_id u := current_time u]> d,
     if negb (Str.startswith (Str.strip (text u)) (Str.lit "http"))
     then send_text E InvalidUrl
     else try_except (fetch_and_send int cfg E (Str.strip (text u)))
            (report_error E)).
Proof.
  intros H. unfold handle_message.
  rewrite <- getitem_value in H. rewrite <- (insert_getitem d).
  destruct (getitem d (user_id u)) as [last d']. simpl in H |- *.
  rewrite H.
  destruct (negb (Str.startswith (Str.strip (text u)) (Str.lit "http")));
    reflexivity.
Qed.

(** The wait reply is seen exactly when the rate check fails. *)
Lemma rate_limited_check (E : env) (d : limiter) (u : update) :
  rate_limited (handle E d u).2
  = Qltb (current_time u - last_request d (user_id u))
      (inject_Z (RATE_LIMIT_SECONDS cfg)).
Proof.
  destruct (Qltb _ _) eqn:H.
  - rewrite handle_message_limited by exact H. reflexivity.
  - rewrite handle_message_passed by exact H. cbn [snd].
    destruct (negb _); [reflexivity|].
    destruct (try_except_resolves E (Str.strip (text u)) (report_error E))
      as (tr & r & ->).
    reflexivity.
Qed.

Lemma passed_window (E : env) (d : limiter) (u : update) :
  rate_limited (handle E d u).2 = false ->
  (inject_Z (RATE_LIMIT_SECONDS cfg)
   <= current_time u - last_request d (user_id u))%Q.
Proof. rewrite rate_limited_check. apply Qltb_false. Qed.

Lemma passed_table (E : env) (d : limiter) (u : update) :
  rate_limited (handle E d u).2 = false ->
  (handle E d u).1 = <[user_id u := current_time u]> d.
Proof.
  rewrite rate_limited_check. intros H.
  rewrite handle_message_passed by exact H. reflexivity.
Qed.

Lemma limited_table (E : env) (d : limiter) (u : update) :
  rate_limited (handle E d u).2 = true ->
  (handle E d u).1 = (getitem d (user_id u)).2.
Proof.
  rewrite rate_limited_check. intros H.
  rewrite handle_message_limited by exact H. reflexivity.
Qed.

(** ** The rate limiter *)

(** C1: the table is written with the arrival time as soon as the rate
    check passes, whatever the later gates decide; on a rate-limit
    rejection the time recorded for every user stays what it was, the
    lookup at most materialising the default entry of a new user. *)
Theorem limiter_written_at_rate_check (E : env) (d : limiter) (u : update) :
  if rate_limited (handle E d u).2
  then (handle E d u).1 = (getitem d (user_id u)).2
       /\ forall k, last_request (handle E d u).1 k = last_request d k
  else (handle E d u).1 = <[user_id u := current_time u]> d.
Proof.
  destruct (rate_limited (handle E d u).2) eqn:H.
  - rewrite (limited_table E d u H). split; [reflexivity|].
    intros k. apply getitem_last_request.
  - exact (passed_table E d u H).
Qed.

(** C2: for a user without an entry the check reads the default 0.0, so
    the first request passes exactly when the arrival time is at least
    the window. *)
Theorem first_request_allowed_iff (E : env) (d : limiter) (u : update) :
  d !! user_id u = None ->
  rate_limited (handle E d u).2 = false
  <-> (inject_Z (RATE_LIMIT_SECONDS cfg) <= current_time u)%Q.
Proof.
  intros Hnone. rewrite rate_limited_check, Qltb_false.
  unfold last_request. rewrite Hnone. simpl. split; intros H; lra.
Qed.

Lemma run_cons (d : limiter) (E : env) (u : update) (reqs : list (env * update)) :
  run int cfg d ((E, u) :: reqs)
  = (u, (handle E d u).2) :: run int cfg (handle E d u).1 reqs.
Proof. simpl. destruct (handle E d u). reflexivity. Qed.

Lemma window_nonneg :
  0 <= RATE_LIMIT_SECONDS cfg -> (0 <= inject_Z (RATE_LIMIT_SECONDS cfg))%Q.
Proof. intros H. change 0%Q with (inject_Z 0). rewrite <- Zle_Qle. exact H. Qed.

(** Once a time is recorded for a user, every later request of that user
    that passes the check arrives at least a window after it. *)
Lemma run_after_recorded (reqs : list (env * update)) :
  0 <= RATE_LIMIT_SECONDS cfg ->
  forall (d : limiter) (uid : Z) (v : Q), d !! uid = Some v ->
  forall (j : nat) (uj : update) (oj : M unit),
    run int cfg d reqs !! j = Some (uj, oj) ->
    rate_limited oj = false -> user_id uj = uid ->
    (v + inject_Z (RATE_LIMIT_SECONDS cfg) <= current_time uj)%Q.
Proof.
  intros HW. pose proof (window_nonneg HW) as HW'.
  induction reqs as [|[E u] reqs IH]; intros d uid v Hv j uj oj Hj Hacc Huid.
  - destruct j; discriminate.
  - rewrite run_cons in Hj. destruct j as [|j]; simpl in Hj.
    + injection Hj as <- <-.
      pose proof (passed_window E d u Hacc) as Hw.
      unfold last_request in Hw. rewrite Huid, Hv in Hw. simpl in Hw. lra.
    + destruct (rate_limited (handle E d u).2) eqn:Hhead.
      * apply (IH (handle E d u).1 uid v) with (j := j) (oj := oj);
  try assumption.
        rewrite (limited_table E d u Hhead).
        destruct (decide (user_id u = uid)) as [->|Hne].
        -- rewrite (getitem_present _ _ _ Hv). exact Hv.
        -- rewrite getitem_lookup_ne by exact Hne. exact Hv.
      * destruct (decide (user_id u = uid)) as [Heq|Hne].
        -- pose proof (passed_window E d u Hhead) as Hw.
           unfold last_request in Hw. rewrite Heq, Hv in Hw. simpl in Hw.
           assert (current_time u + inject_Z (RATE_LIMIT_SECONDS cfg)
                   <= current_time uj)%Q as Hnext.
           { apply (IH (handle E d u).1 uid (current_time u)) with (j := j) (oj := oj);
  try assumption.
             rewrite (passed_table E d u Hhead), Heq. apply lookup_insert_eq. }
           lra.
        -- apply (IH (handle E d u).1 uid v) with (j := j) (oj := oj);
  try assumption.
           rewrite (passed_table E d u Hhead).
           rewrite lookup_insert_ne by exact Hne. exact Hv.
Qed.

(** C3: in any session, two requests of one user that both pass the rate
    check arrive at least a window apart, for a window that is not
    negative. *)
Theorem accepted_requests_spaced
    (d : limiter) (reqs : list (env * update)) (i j : nat)
    (ui uj : update) (oi oj : M unit) :
  0 <= RATE_LIMIT_SECONDS cfg ->
  (i < j)%nat ->
  run int cfg d reqs !! i = Some (ui, oi) ->
  run int cfg d reqs !! j = Some (uj, oj) ->
  rate_limited oi = false -> rate_limited oj = false ->
  user_id ui = user_id uj ->
  (inject_Z (RATE_LIMIT_SECONDS cfg) <= current_time uj - current_time ui)%Q.
Proof.
  intros HW. revert d i j.
  induction reqs as [|[E u] reqs IH]; intros d i j Hij Hi Hj Hai Haj Huid.
  - destruct i; discriminate.
  - rewrite run_cons in Hi, Hj.
    destruct j as [|j]; [lia|]. destruct i as [|i]; simpl in Hi, Hj.
    + injection Hi as <- <-.
      assert (current_time u + inject_Z (RATE_LIMIT_SECONDS cfg)
              <= current_time uj)%Q as Hnext.
      { apply (run_after_recorded reqs HW (handle E d u).1 (user_id u)
                 (current_time u)) with (j := j) (oj := oj); auto.
        rewrite (passed_table E d u Hai). apply lookup_insert_eq. }
      lra.
    + apply (IH (handle E d u).1 i j); auto with lia.
Qed.

(** ** The gates after the rate check *)

Ltac pipeline_step :=
  cbn [mbind M_bind mret M_ret option_bind call quiet send_text send_audio log
       report_error try_except fst snd app].

(** The handler on a request that passed the rate check and the URL test. *)
Lemma handle_message_valid (E : env) (d : limiter) (u : update) :
  rate_limited (handle E d u).2 = false ->
  Str.startswith (Str.strip (text u)) (Str.lit "http") = true ->
  (handle E d u).2
  = try_except (fetch_and_send int cfg E (Str.strip (text u))) (report_error E).
Proof.
  rewrite rate_limited_check. intros Hrate Hurl.
  rewrite handle_message_passed by exact Hrate. rewrite Hurl. reflexivity.
Qed.

Lemma too_large_quiet (header : option Str.t) :
  (too_large int cfg header).1 = [].
Proof.
  destruct header as [[|c s]|]; try reflexivity.
  unfold too_large. pipeline_step. destruct (int (c :: s)); reflexivity.
Qed.

Lemma too_large_header (s : Str.t) (n : Z) :
  s <> [] -> int s = Ok n ->
  too_large int cfg (Some s)
  = ([], Ok (MAX_FILE_SIZE_MB cfg * 1024 * 1024 <? n)).
Proof.
  intros Hs Hn. destruct s as [|c s]; [congruence|].
  unfold too_large. rewrite Hn. reflexivity.
Qed.

Lemma too_large_no_header (header : option Str.t) :
  header = None \/ header = Some [] ->
  too_large int cfg header = ([], Ok false).
Proof. intros [-> | ->]; reflexivity. Qed.

Ltac fetch_prefix Hinfo Hurl Hget Hstatus :=
  unfold fetch_and_send;
  rewrite Hinfo; pipeline_step; rewrite Hurl, Hget; pipeline_step;
  rewrite Hstatus; pipeline_step.

Section Fetched.

Variables (E : env) (url : Str.t) (i : info) (audio_url : Str.t) (r : response).
Hypothesis Hinfo : download_audio_info E url = Ok (Some i).
Hypothesis Hurl : info_url i = Some audio_url.
Hypothesis Hget : requests_get E audio_url = Ok r.
Hypothesis Hstatus : raise_for_status r = Ok ().

(** The size test rejects: the body is not touched. *)
Lemma fetch_and_send_too_large :
  too_large int cfg (content_length r) = ([], Ok true) ->
  fetch_and_send int cfg E url
  = ([EvResolve url; EvGet audio_url;
      EvReplyText (FileTooLarge (MAX_FILE_SIZE_MB cfg))],
     reply_text E (FileTooLarge (MAX_FILE_SIZE_MB cfg))).
Proof.
  intros Hbig. fetch_prefix Hinfo Hurl Hget Hstatus.
  rewrite Hbig. pipeline_step. reflexivity.
Qed.

(** The size test itself raises. *)
Lemma fetch_and_send_bad_header (e : Str.t) :
  too_large int cfg (content_length r) = ([], Raise e) ->
  fetch_and_send int cfg E url = ([EvResolve url; EvGet audio_url], Raise e).
Proof.
  intros Hbig. fetch_prefix Hinfo Hurl Hget Hstatus.
  rewrite Hbig. reflexivity.
Qed.

(** The body cannot be read. *)
Lemma fetch_and_send_no_body (e : Str.t) :
  too_large int cfg (content_length r) = ([], Ok false) ->
  content r = Raise e ->
  fetch_and_send int cfg E url
  = ([EvResolve url; EvGet audio_url; EvContent], Raise e).
Proof.
  intros Hbig Hbody. fetch_prefix Hinfo Hurl Hget Hstatus.
  rewrite Hbig. pipeline_step. rewrite Hbody. reflexivity.
Qed.

(** The body is read and handed to the reply channel. *)
Lemma fetch_and_send_body (data : list Byte.byte) :
  too_large int cfg (content_length r) = ([], Ok false) ->
  content r = Ok data ->
  let a := {| audio_name := audio_name_of i; audio_data := data |} in
  fetch_and_send int cfg E url
  = match reply_audio E a with
    | Ok _ =>
        ([EvResolve url; EvGet audio_url; EvContent; EvReplyAudio a;
          EvLog (sent_audio
                   (sanitize_filename
                      (default (Str.lit "audio") (info_title i))))],
         Ok ())
    | Raise e =>
        ([EvResolve url; EvGet audio_url; EvContent; EvReplyAudio a], Raise e)
    end.
Proof.
  intros Hbig Hbody. fetch_prefix Hinfo Hurl Hget Hstatus.
  rewrite Hbig. pipeline_step. rewrite Hbody. pipeline_step.
  unfold audio_name_of.
  destruct (reply_audio E _) as [[]|e]; reflexivity.
Qed.

End Fetched.

Ltac not_in_trace :=
  let H := fresh "Hin" in
  intros H;
  repeat (apply elem_of_cons in H as [H|H]; [discriminate H|]);
  apply elem_of_nil in H; exact H.

(** C5: a request that passed the rate check and whose trimmed text does
    not start with the four characters http gets the invalid-URL reply
    and nothing else: the resolver is not called. *)
Theorem invalid_url_rejected (E : env) (d : limiter) (u : update) :
  rate_limited (handle E d u).2 = false ->
  Str.startswith (Str.strip (text u)) (Str.lit "http") = false ->
  (handle E d u).2 = ([EvReplyText InvalidUrl], reply_text E InvalidUrl)
  /\ ~ resolver_called (handle E d u).2.1.
Proof.
  rewrite rate_limited_check. intros Hrate Hurl.
  rewrite handle_message_passed by exact Hrate. rewrite Hurl.
  split; [reflexivity|]. intros [url Hin]. revert Hin. simpl. not_in_trace.
Qed.

(** C6: a content-length header above MAX_FILE_SIZE_MB * 1024 * 1024 gets
    the size-exceeded reply and the body is never read; a header equal to
    the threshold is not rejected: the body is read. *)
Theorem oversized_header_rejected
    (E : env) (d : limiter) (u : update)
    (i : info) (audio_url : Str.t) (r : response) (s : Str.t) (n : Z) :
  fetched int cfg E d u i audio_url r ->
  content_length r = Some s -> s <> [] -> int s = Ok n ->
  let mb := MAX_FILE_SIZE_MB cfg in
  let url := Str.strip (text u) in
  (mb * 1024 * 1024 < n ->
     (handle E d u).2
     = try_except ([EvResolve url; EvGet audio_url;
                    EvReplyText (FileTooLarge mb)],
                   reply_text E (FileTooLarge mb)) (report_error E)
     /\ EvContent ∉ (handle E d u).2.1)
  /\ (n = mb * 1024 * 1024 ->
       (exists tl,
           (handle E d u).2.1 = [EvResolve url; EvGet audio_url; EvContent] ++ tl)
       /\ EvReplyText (FileTooLarge mb) ∉ (handle E d u).2.1).
Proof.
  intros (Hrate & Hhttp & Hinfo & Hurl & Hget & Hstatus) Hlen Hs Hn mb url.
  rewrite (handle_message_valid E d u Hrate Hhttp). fold url in Hinfo |- *.
  pose proof (too_large_header s n Hs Hn) as Hbig. rewrite <- Hlen in Hbig.
  fold mb in Hbig. split.
  - intros Hgt. apply Z.ltb_lt in Hgt. rewrite Hgt in Hbig.
    rewrite (fetch_and_send_too_large E url i audio_url r
               Hinfo Hurl Hget Hstatus Hbig).
    fold mb. split; [reflexivity|].
    unfold try_except, report_error.
    destruct (reply_text E (FileTooLarge mb)) as [[]|e]; pipeline_step.
    + not_in_trace.
    + destruct (reply_text E (ErrorReply e)); not_in_trace.
  - intros Heq. rewrite Heq, Z.ltb_irrefl in Hbig.
    destruct (content r) as [data|e] eqn:Hbody.
    + rewrite (fetch_and_send_body E url i audio_url r
                 Hinfo Hurl Hget Hstatus data Hbig Hbody).
      unfold try_except, report_error.
      destruct (reply_audio E _) as [[]|e]; pipeline_step.
      * split; [eexists; reflexivity | not_in_trace].
      * destruct (reply_text E (ErrorReply e));
          (split; [eexists; reflexivity | not_in_trace]).
    + rewrite (fetch_and_send_no_body E url i audio_url r
                 Hinfo Hurl Hget Hstatus e Hbig Hbody).
      unfold try_except, report_error. pipeline_step.
      destruct (reply_text E (ErrorReply e));
        (split; [eexists; reflexivity | not_in_trace]).
Qed.

(** C9: without a content-length header, or with an empty one, there is no
    size test: the body is read and sent as audio whatever its length,
    and no size-exceeded reply is made. *)
Theorem missing_header_skips_size_check
    (E : env) (d : limiter) (u : update)
    (i : info) (audio_url : Str.t) (r : response) (data : list Byte.byte) :
  fetched int cfg E d u i audio_url r ->
  content_length r = None \/ content_length r = Some [] ->
  content r = Ok data ->
  let a := {| audio_name := audio_name_of i; audio_data := data |} in
  (exists tl,
      (handle E d u).2.1
      = [EvResolve (Str.strip (text u)); EvGet audio_url; EvContent;
         EvReplyAudio a] ++ tl)
  /\ forall mb, EvReplyText (FileTooLarge mb) ∉ (handle E d u).2.1.
Proof.
  intros (Hrate & Hhttp & Hinfo & Hurl & Hget & Hstatus) Hlen Hbody a.
  rewrite (handle_message_valid E d u Hrate Hhttp).
  rewrite (fetch_and_send_body E _ i audio_url r Hinfo Hurl Hget Hstatus data
             (too_large_no_header _ Hlen) Hbody).
  fold a. unfold try_except, report_error.
  destruct (reply_audio E a) as [[]|e]; pipeline_step.
  - split; [eexists; reflexivity | intros mb; not_in_trace].
  - destruct (reply_text E (ErrorReply e));
      (split; [eexists; reflexivity | intros mb; not_in_trace]).
Qed.

(** C10: when the audio reply raises after resolution, fetch and size test
    succeeded, the exception is caught by the handler, logged, and an
    error reply is attempted: two sends for one request. *)
Theorem audio_send_failure_reported
    (E : env) (d : limiter) (u : update)
    (i : info) (audio_url : Str.t) (r : response) (data : list Byte.byte)
    (e : Str.t) :
  fetched int cfg E d u i audio_url r ->
  too_large int cfg (content_length r) = ([], Ok false) ->
  content r = Ok data ->
  let a := {| audio_name := audio_name_of i; audio_data := data |} in
  reply_audio E a = Raise e ->
  (handle E d u).2
  = ([EvResolve (Str.strip (text u)); EvGet audio_url; EvContent;
      EvReplyAudio a; EvLog (error_record e); EvReplyText (ErrorReply e)],
     reply_text E (ErrorReply e))
  /\ replies (handle E d u).2.1 = [AudioReply a; TextReply (ErrorReply e)].
Proof.
  intros (Hrate & Hhttp & Hinfo & Hurl & Hget & Hstatus) Hbig Hbody a Hsend.
  rewrite (handle_message_valid E d u Hrate Hhttp).
  rewrite (fetch_and_send_body E _ i audio_url r Hinfo Hurl Hget Hstatus data
             Hbig Hbody).
  fold a. rewrite Hsend. split; reflexivity.
Qed.

(** ** Exceptions and the replies of a run *)

Lemma try_except_returns (E : env) (body : M unit) :
  (forall m, reply_text E m = Ok ()) ->
  (try_except body (report_error E)).2 = Ok ().
Proof.
  intros Hreply. destruct body as [tr [[]|e]]; [reflexivity|].
  unfold try_except, report_error. pipeline_step. apply Hreply.
Qed.

Lemma try_except_raised (E : env) (tr : list event) (e : Str.t) :
  try_except (tr, Raise e) (report_error E)
  = (tr ++ [EvLog (error_record e); EvReplyText (ErrorReply e)],
     reply_text E (ErrorReply e)).
Proof. reflexivity. Qed.

(** What the resolver or the HTTP client raises leaves the [try] block
    before any reply or log record. *)
Lemma collaborator_raises_body (E : env) (url e : Str.t) :
  collaborator_raises int cfg E url e ->
  exists tr,
    fetch_and_send int cfg E url = (tr, Raise e)
    /\ replies tr = [] /\ logs tr = [].
Proof.
  intros [Hres | (i & audio_url & Hinfo & Hurl & [Hget | (r & Hget & Hr)])].
  - exists [EvResolve url]. unfold fetch_and_send. rewrite Hres. easy.
  - exists [EvResolve url; EvGet audio_url]. unfold fetch_and_send.
    rewrite Hinfo. pipeline_step. rewrite Hurl, Hget. easy.
  - destruct Hr as [Hstatus | (Hstatus & Hbig & Hbody)].
    + exists [EvResolve url; EvGet audio_url]. unfold fetch_and_send.
      rewrite Hinfo. pipeline_step. rewrite Hurl, Hget. pipeline_step.
      rewrite Hstatus. easy.
    + exists [EvResolve url; EvGet audio_url; EvContent].
      rewrite (fetch_and_send_no_body E url i audio_url r
                 Hinfo Hurl Hget Hstatus e Hbig Hbody).
      easy.
Qed.

(** C8: an exception of the resolver or of the HTTP client is caught by
    the handler, logged once as the text Error: followed by its message,
    and answered with one error reply, the cross mark and Error: followed
    by that message; the handler then ends as the send of that reply
    does. So the collaborator's exception never leaves the handler, and
    the handler returns normally on every request when text replies are
    delivered; an exception of the error reply itself is not caught. *)
Theorem collaborator_exceptions_caught (E : env) (d : limiter) (u : update) :
  (forall e,
      rate_limited (handle E d u).2 = false ->
      Str.startswith (Str.strip (text u)) (Str.lit "http") = true ->
      collaborator_raises int cfg E (Str.strip (text u)) e ->
      logs (handle E d u).2.1 = [LogError (Str.lit "Error: " ++ e)]
      /\ replies (handle E d u).2.1 = [TextReply (ErrorReply e)]
      /\ render (ErrorReply e) = 10060%N :: Str.lit " Error: " ++ e
      /\ (handle E d u).2.2 = reply_text E (ErrorReply e))
  /\ ((forall m, reply_text E m = Ok ()) -> (handle E d u).2.2 = Ok ()).
Proof.
  split.
  - intros e Hrate Hhttp Hraise.
    rewrite (handle_message_valid E d u Hrate Hhttp).
    destruct (collaborator_raises_body E _ e Hraise) as (tr & -> & Hr & Hl).
    rewrite try_except_raised. cbn [fst snd]. unfold logs, replies in *.
    rewrite !omap_app, Hr, Hl. repeat split; reflexivity.
  - intros Hreply.
    destruct (Qltb (current_time u - last_request d (user_id u))
                (inject_Z (RATE_LIMIT_SECONDS cfg))) eqn:Hrate.
    + rewrite handle_message_limited by exact Hrate. apply Hreply.
    + rewrite handle_message_passed by exact Hrate. cbn [snd].
      destruct (negb _); [apply Hreply|].
      apply try_except_returns, Hreply.
Qed.

(** The [try] block when every send is delivered: it returns after one
    reply, or raises before any. *)
Lemma fetch_and_send_shape (E : env) (url : Str.t) :
  (forall m, reply_text E m = Ok ()) ->
  (forall a, reply_audio E a = Ok ()) ->
  match (fetch_and_send int cfg E url).2 with
  | Ok _ =>
      exists r,
        replies (fetch_and_send int cfg E url).1 = [r]
        /\ length (logs (fetch_and_send int cfg E url).1)
           = (if is_rejection r then 0 else 1)%nat
  | Raise e =>
      replies (fetch_and_send int cfg E url).1 = []
      /\ logs (fetch_and_send int cfg E url).1 = []
  end.
Proof.
  intros Htext Haudio. unfold fetch_and_send.
  destruct (download_audio_info E url) as [[i|]|e]; pipeline_step;
    [ | rewrite Htext; eexists; easy | easy].
  destruct (info_url i) as [audio_url|]; pipeline_step;
    [ | rewrite Htext; eexists; easy].
  destruct (requests_get E audio_url) as [r|e]; pipeline_step; [|easy].
  destruct (raise_for_status r) as [[]|e]; pipeline_step; [|easy].
  pose proof (too_large_quiet (content_length r)) as Hquiet.
  destruct (too_large int cfg (content_length r)) as [tr [[|]|e]];
    simpl in Hquiet; subst tr; pipeline_step; [ | | easy].
  - rewrite Htext. eexists; easy.
  - destruct (content r) as [data|e]; pipeline_step; [|easy].
    rewrite Haudio. pipeline_step. eexists; easy.
Qed.

(** C7: when the sends are delivered every request gets exactly one reply;
    a log record is written exactly once on the success path and on the
    caught-exception path, and not at all when one of the four gates
    rejects the request. *)
Theorem one_reply_per_request (E : env) (d : limiter) (u : update) :
  (forall m, reply_text E m = Ok ()) ->
  (forall a, reply_audio E a = Ok ()) ->
  exists r,
    replies (handle E d u).2.1 = [r]
    /\ length (logs (handle E d u).2.1)
       = (if is_rejection r then 0 else 1)%nat.
Proof.
  intros Htext Haudio.
  destruct (Qltb (current_time u - last_request d (user_id u))
              (inject_Z (RATE_LIMIT_SECONDS cfg))) eqn:Hrate.
  - rewrite handle_message_limited by exact Hrate.
    exists (TextReply PleaseWait). easy.
  - rewrite handle_message_passed by exact Hrate. cbn [snd].
    destruct (negb _); [exists (TextReply InvalidUrl); easy|].
    pose proof (fetch_and_send_shape E (Str.strip (text u)) Htext Haudio)
      as Hshape.
    destruct (fetch_and_send int cfg E (Str.strip (text u))) as [tr [[]|e]];
      cbn [fst snd] in Hshape.
    + destruct Hshape as (r & Hr & Hl). exists r. easy.
    + destruct Hshape as [Hr Hl]. rewrite try_except_raised. cbn [fst].
      exists (TextReply (ErrorReply e)). unfold logs, replies in *.
      rewrite !omap_app, Hr, Hl. easy.
Qed.

End Properties.

(** * The properties on the sample data *)

Import Sample.

(** An invalid text from a new user at an ordinary time: the request is
    rejected, and the table has the arrival time. *)
Lemma limiter_untouched_on_rejection_refuted :
  ~ (forall int cfg E (d : limiter) u r,
        replies (handle_message int cfg E d u).2.1 = [r] ->
        is_rejection r = true ->
        (handle_message int cfg E d u).1 = d).
Proof.
  intros H.
  specialize (H int cfg (good None) ∅ (upd now "hello") (TextReply InvalidUrl)).
  assert ((handle_message int cfg (good None) ∅ (upd now "hello")).1 !! 7
          = (∅ : limiter) !! 7) as Hlookup.
  { rewrite H; reflexivity. }
  vm_compute in Hlookup. discriminate Hlookup.
Qed.

(** A first request under a window longer than the epoch time. *)
Lemma first_request_always_allowed_refuted :
  ~ (forall int cfg E (d : limiter) u,
        d !! user_id u = None ->
        rate_limited (handle_message int cfg E d u).2 = false).
Proof.
  intros H.
  specialize (H int cfg_long (good None) ∅ (upd now link) eq_refl).
  vm_compute in H. discriminate H.
Qed.

Lemma first_request_allowed_iff_witness :
  (∅ : limiter) !! user_id (upd now link) = None
  /\ (rate_limited (handle_message int cfg (good None) ∅ (upd now link)).2
      = false
      <-> (inject_Z (RATE_LIMIT_SECONDS cfg) <= current_time (upd now link))%Q).
Proof.
  split; [reflexivity|].
  apply (first_request_allowed_iff int cfg (good None) ∅ (upd now link)).
  reflexivity.
Defined.

Lemma accepted_requests_spaced_witness :
  (inject_Z (RATE_LIMIT_SECONDS cfg)
   <= current_time (upd (now + 11) link) - current_time (upd now link))%Q.
Proof.
  refine (accepted_requests_spaced int cfg ∅ session 0 2
            (upd now link) (upd (now + 11) link) _ _ _ _ _ _ _ _ _).
  - vm_compute. discriminate.
  - lia.
  - vm_compute. reflexivity.
  - vm_compute. reflexivity.
  - vm_compute. reflexivity.
  - vm_compute. reflexivity.
  - reflexivity.
Defined.

Ltac listed :=
  repeat first [apply list_elem_of_here | apply list_elem_of_further].

Ltac unlisted :=
  let H := fresh "Hin" in
  intros H;
  repeat (apply elem_of_cons in H as [H|H]; [discriminate H|]);
  apply elem_of_nil in H; exact H.

(** The sample title loses its nine special characters and its last nine
    letters. *)
Lemma sanitize_filename_dirty :
  sanitize_filename dirty = replicate 9 95%N ++ replicate 91 97%N.
Proof. vm_compute. reflexivity. Qed.

Lemma sanitize_filename_spec_witness :
  length dirty = 109%nat
  /\ length (sanitize_filename dirty) = 100%nat
  /\ sanitize_filename dirty !! 0%nat = Some 95%N
  /\ sanitize_filename dirty !! 1%nat = Some 95%N
  /\ sanitize_filename dirty !! 2%nat = Some 95%N
  /\ sanitize_filename dirty !! 3%nat = Some 95%N
  /\ sanitize_filename dirty !! 4%nat = Some 95%N
  /\ sanitize_filename dirty !! 5%nat = Some 95%N
  /\ sanitize_filename dirty !! 6%nat = Some 95%N
  /\ sanitize_filename dirty !! 7%nat = Some 95%N
  /\ sanitize_filename dirty !! 8%nat = Some 95%N
  /\ sanitize_filename dirty !! 9%nat = Some 97%N
  /\ sanitize_filename dirty !! 100%nat = None
  /\ sanitize_filename (sanitize_filename dirty) = sanitize_filename dirty
  /\ sanitize_filename (Str.lit "a_b_c") = Str.lit "a_b_c".
Proof.
  destruct (sanitize_filename_spec dirty)
    as (Hlen & Hreplace & Hkeep & Hcut & _ & _ & Hidem & _).
  destruct (sanitize_filename_spec (Str.lit "a_b_c"))
    as (_ & _ & _ & _ & _ & _ & _ & Hclean).
  split; [reflexivity|]. split; [exact Hlen|].
  split; [apply (Hreplace 0%nat 60%N); [lia | reflexivity | listed]|].
  split; [apply (Hreplace 1%nat 62%N); [lia | reflexivity | listed]|].
  split; [apply (Hreplace 2%nat 58%N); [lia | reflexivity | listed]|].
  split; [apply (Hreplace 3%nat 34%N); [lia | reflexivity | listed]|].
  split; [apply (Hreplace 4%nat 47%N); [lia | reflexivity | listed]|].
  split; [apply (Hreplace 5%nat 92%N); [lia | reflexivity | listed]|].
  split; [apply (Hreplace 6%nat 124%N); [lia | reflexivity | listed]|].
  split; [apply (Hreplace 7%nat 63%N); [lia | reflexivity | listed]|].
  split; [apply (Hreplace 8%nat 42%N); [lia | reflexivity | listed]|].
  split; [apply (Hkeep 9%nat 97%N); [lia | reflexivity | unlisted]|].
  split; [apply (Hcut 100%nat); lia|].
  split; [exact Hidem|].
  apply Hclean.
  - intros c Hc.
    repeat (apply elem_of_cons in Hc as [Hc|Hc]; [subst c; unlisted|]).
    apply elem_of_nil in Hc. destruct Hc.
  - vm_compute. lia.
Defined.

(** A text that starts with http but with neither scheme marker reaches
    the resolver. *)
Lemma scheme_marker_required_refuted :
  ~ (forall int cfg E (d : limiter) u,
        rate_limited (handle_message int cfg E d u).2 = false ->
        Str.startswith (Str.strip (text u)) (Str.lit "http://") = false ->
        Str.startswith (Str.strip (text u)) (Str.lit "https://") = false ->
        ~ resolver_called (handle_message int cfg E d u).2.1).
Proof.
  intros H.
  apply (H int cfg (good None) ∅ (upd now "httpfoo")); try reflexivity.
  exists (Str.lit "httpfoo"). vm_compute. apply list_elem_of_here.
Qed.

Lemma invalid_url_rejected_witness :
  (handle_message int cfg (good None) ∅ (upd now "hello")).2
  = ([EvReplyText InvalidUrl], Ok ())
  /\ ~ resolver_called (handle_message int cfg (good None) ∅ (upd now "hello")).2.1.
Proof.
  apply (invalid_url_rejected int cfg (good None) ∅ (upd now "hello"));
    reflexivity.
Defined.

Lemma fetched_sample (c : config) (E : env) (header : option Str.t) :
  RATE_LIMIT_SECONDS c = 10 ->
  download_audio_info E = (fun _ => Ok (Some song)) ->
  requests_get E = (fun _ => Ok (resp header)) ->
  fetched int c E ∅ (upd now link) song stream (resp header).
Proof.
  intros Hwindow Hinfo Hget. unfold fetched.
  rewrite rate_limited_check, Hwindow, Hinfo, Hget.
  repeat split; reflexivity.
Qed.

Lemma oversized_header_rejected_witness :
  (EvContent ∉ (handle_message int cfg (good over) ∅ (upd now link)).2.1)
  /\ (EvReplyText (FileTooLarge 50)
      ∉ (handle_message int cfg (good exact) ∅ (upd now link)).2.1).
Proof.
  split.
  - refine (proj2 (proj1 (oversized_header_rejected int cfg (good over) ∅
                            (upd now link) song stream (resp over)
                            (Str.lit "52428801") 52428801 _ _ _ _) _)).
    + apply fetched_sample; reflexivity.
    + reflexivity.
    + discriminate.
    + reflexivity.
    + reflexivity.
  - refine (proj2 (proj2 (oversized_header_rejected int cfg (good exact) ∅
                            (upd now link) song stream (resp exact)
                            (Str.lit "52428800") 52428800 _ _ _ _) _)).
    + apply fetched_sample; reflexivity.
    + reflexivity.
    + discriminate.
    + reflexivity.
    + reflexivity.
Defined.

(** A rejected request leaves no log record, also when every send is
    delivered. *)
Lemma one_log_record_per_request_refuted :
  ~ (forall int cfg E (d : limiter) u,
        (forall m, reply_text E m = Ok ()) ->
        (forall a, reply_audio E a = Ok ()) ->
        length (replies (handle_message int cfg E d u).2.1) = 1%nat
        /\ length (logs (handle_message int cfg E d u).2.1) = 1%nat).
Proof.
  intros H.
  destruct (H int cfg (good None) ∅ (upd now "hello")) as [_ Hlogs];
    try reflexivity.
  vm_compute in Hlogs. discriminate Hlogs.
Qed.

Lemma one_reply_per_request_witness :
  exists r,
    replies (handle_message int cfg (good None) ∅ (upd now link)).2.1 = [r]
    /\ length (logs (handle_message int cfg (good None) ∅ (upd now link)).2.1)
       = (if is_rejection r then 0 else 1)%nat.
Proof.
  apply (one_reply_per_request int cfg (good None) ∅ (upd now link));
    reflexivity.
Defined.

(** The resolver raises and the error reply cannot be delivered: the
    exception of the reply leaves the handler. *)
Lemma no_error_leaves_handler_refuted :
  ~ (forall int cfg E (d : limiter) u e,
        rate_limited (handle_message int cfg E d u).2 = false ->
        Str.startswith (Str.strip (text u)) (Str.lit "http") = true ->
        collaborator_raises int cfg E (Str.strip (text u)) e ->
        (handle_message int cfg E d u).2.2 = Ok ()).
Proof.
  intros H.
  specialize (H int cfg offline ∅ (upd now link) (Str.lit "Unsupported URL")).
  assert ((handle_message int cfg offline ∅ (upd now link)).2.2
          = Raise (Str.lit "Forbidden")) as Hraised by reflexivity.
  rewrite H in Hraised; [discriminate Hraised | reflexivity | reflexivity |].
  left. reflexivity.
Qed.

Lemma collaborator_exceptions_caught_witness :
  (logs (handle_message int cfg no_resolver ∅ (upd now link)).2.1
   = [LogError (Str.lit "Error: Unsupported URL")]
   /\ replies (handle_message int cfg no_resolver ∅ (upd now link)).2.1
      = [TextReply (ErrorReply (Str.lit "Unsupported URL"))]
   /\ render (ErrorReply (Str.lit "Unsupported URL"))
      = 10060%N :: Str.lit " Error: Unsupported URL"
   /\ (handle_message int cfg no_resolver ∅ (upd now link)).2.2
      = reply_text no_resolver (ErrorReply (Str.lit "Unsupported URL")))
  /\ (handle_message int cfg no_resolver ∅ (upd now link)).2.2 = Ok ()
  /\ (handle_message int cfg offline ∅ (upd now link)).2.2
     = Raise (Str.lit "Forbidden").
Proof.
  destruct (collaborator_exceptions_caught int cfg no_resolver ∅ (upd now link))
    as [Hcaught Hret].
  destruct (collaborator_exceptions_caught int cfg offline ∅ (upd now link))
    as [Hoffline _].
  split; [|split].
  - apply Hcaught; [reflexivity | reflexivity | left; reflexivity].
  - apply Hret. reflexivity.
  - destruct (Hoffline (Str.lit "Unsupported URL"))
      as (_ & _ & _ & Hend); [reflexivity | reflexivity | left; reflexivity |].
    exact Hend.
Defined.

(** No audio may be sent at all, yet three bytes go out when the response
    has no content-length header. *)
Lemma missing_header_skips_size_check_witness :
  (MAX_FILE_SIZE_MB cfg_tiny * 1024 * 1024 < Z.of_nat (length body))
  /\ (exists tl,
        (handle_message int cfg_tiny (good None) ∅ (upd now link)).2.1
        = [EvResolve (Str.strip (text (upd now link))); EvGet stream;
           EvContent;
           EvReplyAudio {| audio_name := audio_name_of song;
                           audio_data := body |}] ++ tl)
  /\ forall mb,
      EvReplyText (FileTooLarge mb)
      ∉ (handle_message int cfg_tiny (good None) ∅ (upd now link)).2.1.
Proof.
  split; [reflexivity|].
  apply (missing_header_skips_size_check int cfg_tiny (good None) ∅
           (upd now link) song stream (resp None) body).
  - apply fetched_sample; reflexivity.
  - left. reflexivity.
  - reflexivity.
Defined.

Lemma audio_send_failure_reported_witness :
  replies (handle_message int cfg no_audio ∅ (upd now link)).2.1
  = [AudioReply {| audio_name := audio_name_of song; audio_data := body |};
     TextReply (ErrorReply (Str.lit "Timed out"))].
Proof.
  refine (proj2 (audio_send_failure_reported int cfg no_audio ∅ (upd now link)
                   song stream (resp None) body (Str.lit "Timed out")
                   _ _ _ _)).
  - apply fetched_sample; reflexivity.
  - reflexivity.
  - reflexivity.
  - reflexivity.
Defined.

(** * Further properties of the handler *)

Ltac pipeline_step :=
  cbn [mbind M_bind mret M_ret option_bind call quiet send_text send_audio log
       report_error try_except fst snd app].

Ltac not_in_trace :=
  let H := fresh "Hin" in
  intros H;
  repeat (apply elem_of_cons in H as [H|H]; [discriminate H|]);
  apply elem_of_nil in H; exact H.

Section Paths.

Variable int : Str.t -> result Z.
Variable cfg : config.

Abbreviation body := (fetch_and_send int cfg).

Lemma body_resolver_raises (E : env) (url e : Str.t) :
  download_audio_info E url = Raise e -> body E url = ([EvResolve url], Raise e).
Proof. intros H. unfold fetch_and_send. rewrite H. reflexivity. Qed.

Lemma body_no_stream (E : env) (url : Str.t) (o : option info) :
  download_audio_info E url = Ok o -> o ≫= info_url = None ->
  body E url
  = ([EvResolve url; EvReplyText CouldNotFetch], reply_text E CouldNotFetch).
Proof.
  intros H Hnone. unfold fetch_and_send. rewrite H. pipeline_step.
  change (option_bind _ _ info_url o) with (o ≫= info_url).
  rewrite Hnone. reflexivity.
Qed.

Lemma body_fetch_fails (E : env) (url : Str.t) (i : info) (audio_url e : Str.t) :
  download_audio_info E url = Ok (Some i) -> info_url i = Some audio_url ->
  fetch_fails int cfg E audio_url e ->
  body E url = ([EvResolve url; EvGet audio_url], Raise e).
Proof.
  intros Hinfo Hurl [Hget | (r & Hget & [Hstatus | [Hstatus Hbig]])].
  - unfold fetch_and_send. rewrite Hinfo. pipeline_step.
    rewrite Hurl, Hget. reflexivity.
  - unfold fetch_and_send. rewrite Hinfo. pipeline_step.
    rewrite Hurl, Hget. pipeline_step. rewrite Hstatus. reflexivity.
  - exact (fetch_and_send_bad_header int cfg E url i audio_url r
             Hinfo Hurl Hget Hstatus e Hbig).
Qed.

(** The [try] block follows one of the seven paths. *)
Lemma body_follows_path (E : env) (url : Str.t) :
  body_path int cfg E url (body E url).
Proof.
  destruct (download_audio_info E url) as [[i|]|e] eqn:Hinfo.
  2: { rewrite (body_no_stream E url None Hinfo eq_refl).
       apply (PathNoStream int cfg E url None Hinfo eq_refl). }
  2: { rewrite (body_resolver_raises E url e Hinfo).
       apply PathResolverRaises, Hinfo. }
  destruct (info_url i) as [audio_url|] eqn:Hurl.
  2: { rewrite (body_no_stream E url (Some i) Hinfo Hurl).
       apply (PathNoStream int cfg E url (Some i) Hinfo Hurl). }
  destruct (requests_get E audio_url) as [r|e] eqn:Hget.
  2: { rewrite (body_fetch_fails E url i audio_url e Hinfo Hurl);
         [|left; exact Hget].
       apply (PathFetchFails int cfg E url i audio_url e Hinfo Hurl).
       left. exact Hget. }
  destruct (raise_for_status r) as [[]|e] eqn:Hstatus.
  2: { assert (fetch_fails int cfg E audio_url e) as Hfail
         by (right; exists r; auto).
       rewrite (body_fetch_fails E url i audio_url e Hinfo Hurl Hfail).
       apply (PathFetchFails int cfg E url i audio_url e Hinfo Hurl Hfail). }
  assert (answered E url i audio_url r) as Hans by (repeat split; assumption).
  pose proof (too_large_quiet int cfg (content_length r)) as Hquiet.
  destruct (too_large int cfg (content_length r)) as [tr [[|]|e]] eqn:Hbig;
    simpl in Hquiet; subst tr.
  - rewrite (fetch_and_send_too_large int cfg E url i audio_url r
               Hinfo Hurl Hget Hstatus Hbig).
    apply (PathTooLarge int cfg E url i audio_url r Hans Hbig).
  - destruct (content r) as [data|e] eqn:Hbody.
    + rewrite (fetch_and_send_body int cfg E url i audio_url r
                 Hinfo Hurl Hget Hstatus data Hbig Hbody).
      cbv zeta.
      destruct (reply_audio E _) as [[]|e] eqn:Hsend.
      * apply (PathAudioSent int cfg E url i audio_url r data Hans Hbig Hbody
                 Hsend).
      * apply (PathAudioFails int cfg E url i audio_url r data e Hans Hbig
                 Hbody Hsend).
    + rewrite (fetch_and_send_no_body int cfg E url i audio_url r
                 Hinfo Hurl Hget Hstatus e Hbig Hbody).
      apply (PathBodyFails int cfg E url i audio_url r e Hans Hbig Hbody).
  - assert (fetch_fails int cfg E audio_url e) as Hfail
      by (right; exists r; auto).
    rewrite (body_fetch_fails E url i audio_url e Hinfo Hurl Hfail).
    apply (PathFetchFails int cfg E url i audio_url e Hinfo Hurl Hfail).
Qed.

(** X1: the seven paths are exactly what the [try] block does: a
    computation is a path of the block if and only if it is the run of the
    block. *)
Theorem body_path_iff (E : env) (url : Str.t) (m : M unit) :
  body_path int cfg E url m <-> m = body E url.
Proof.
  split.
  - intros Hpath. symmetry.
    destruct Hpath as [e H | o H Hnone | i a e Hinfo Hurl Hfail
                      | i a r (Hinfo & Hurl & Hget & Hstatus) Hbig
                      | i a r e (Hinfo & Hurl & Hget & Hstatus) Hbig Hbody
                      | i a r data e (Hinfo & Hurl & Hget & Hstatus) Hbig Hbody
                          Hsend
                      | i a r data (Hinfo & Hurl & Hget & Hstatus) Hbig Hbody
                          Hsend].
    + exact (body_resolver_raises E url e H).
    + exact (body_no_stream E url o H Hnone).
    + exact (body_fetch_fails E url i a e Hinfo Hurl Hfail).
    + exact (fetch_and_send_too_large int cfg E url i a r
               Hinfo Hurl Hget Hstatus Hbig).
    + exact (fetch_and_send_no_body int cfg E url i a r
               Hinfo Hurl Hget Hstatus e Hbig Hbody).
    + rewrite (fetch_and_send_body int cfg E url i a r
                 Hinfo Hurl Hget Hstatus data Hbig Hbody).
      cbv zeta. rewrite Hsend. reflexivity.
    + rewrite (fetch_and_send_body int cfg E url i a r
                 Hinfo Hurl Hget Hstatus data Hbig Hbody).
      cbv zeta. rewrite Hsend. reflexivity.
  - intros ->. apply body_follows_path.
Qed.

End Paths.

Section Runs.

Variable int : Str.t -> result Z.
Variable cfg : config.

Abbreviation handler := (handle_message int cfg).

(** The three branches of the handler. *)
Lemma handler_branches (E : env) (d : limiter) (u : update) :
  (handler E d u).2 = ([EvReplyText PleaseWait], reply_text E PleaseWait)
  \/ (handler E d u).2 = ([EvReplyText InvalidUrl], reply_text E InvalidUrl)
  \/ (Str.startswith (Str.strip (text u)) (Str.lit "http") = true
      /\ (handler E d u).2
         = try_except (fetch_and_send int cfg E (Str.strip (text u)))
             (report_error E)).
Proof.
  destruct (Qltb (current_time u - last_request d (user_id u))
              (inject_Z (RATE_LIMIT_SECONDS cfg))) eqn:Hrate.
  - left. rewrite handle_message_limited by exact Hrate. reflexivity.
  - right. rewrite handle_message_passed by exact Hrate. cbn [snd].
    destruct (Str.startswith _ _); [right | left]; auto.
Qed.

(** Every run, listed: what a property of all runs has to be checked on. *)
Ltac all_runs E d u :=
  let Hpath := fresh "Hpath" in
  let m := fresh "m" in
  destruct (handler_branches E d u) as [-> | [-> | [Hhttp ->]]];
  [ | | pose proof (body_follows_path int cfg E (Str.strip (text u))) as Hpath;
        remember (fetch_and_send int cfg E (Str.strip (text u))) as m;
        destruct Hpath as [err H | o H Hnone | i strm err Hinfo Hurl Hfail
                          | i strm r Hans Hbig | i strm r err Hans Hbig Hbody
                          | i strm r data err Hans Hbig Hbody Hsend
                          | i strm r data Hans Hbig Hbody Hsend];
        unfold try_except, report_error; pipeline_step ].

(** X2: whatever the collaborators do, the resolver, the HTTP request and
    the body read are each made at most once per update, and in that
    order. *)
Theorem collaborators_called_in_order (E : env) (d : limiter) (u : update) :
  exists audio_url,
    external_calls (handler E d u).2.1
    `prefix_of` [EvResolve (Str.strip (text u)); EvGet audio_url; EvContent].
Proof.
  all_runs E d u; cbn [fst].
  - exists []. apply prefix_nil.
  - exists []. apply prefix_nil.
  - exists []. now exists [EvGet []; EvContent].
  - exists []. destruct (reply_text E CouldNotFetch);
      now exists [EvGet []; EvContent].
  - exists strm. now exists [EvContent].
  - exists strm. destruct (reply_text E (FileTooLarge _));
      now exists [EvContent].
  - exists strm. now exists [].
  - exists strm. now exists [].
  - exists strm. now exists [].
Qed.

(** X3: every update gets at least one reply and at most two; a second
    reply is made only when the first send raised, and it is the error
    reply for that exception, logged once. *)
Theorem one_or_two_replies (E : env) (d : limiter) (u : update) :
  (exists rp, replies (handler E d u).2.1 = [rp])
  \/ (exists rp e,
        replies (handler E d u).2.1 = [rp; TextReply (ErrorReply e)]
        /\ logs (handler E d u).2.1 = [error_record e]
        /\ send_outcome E rp = Raise e).
Proof.
  all_runs E d u; cbn [fst];
    try (left; eexists; reflexivity).
  - destruct (reply_text E CouldNotFetch) as [[]|e] eqn:Hsend; pipeline_step.
    + left; eexists; reflexivity.
    + right. exists (TextReply CouldNotFetch), e. auto.
  - destruct (reply_text E (FileTooLarge _)) as [[]|e] eqn:Hsend; pipeline_step.
    + left; eexists; reflexivity.
    + right. exists (TextReply (FileTooLarge (MAX_FILE_SIZE_MB cfg))), e. auto.
  - right. eexists (AudioReply _), err. auto.
Qed.

(** X4: an exception leaves the handler only from a text reply that is
    the last call of the run: the wait reply, the invalid-URL reply or an
    error reply. No exception of the resolver, of the HTTP client or of
    the audio send leaves it. *)
Theorem only_text_replies_escape
    (E : env) (d : limiter) (u : update) (e : Str.t) :
  (handler E d u).2.2 = Raise e ->
  exists m,
    last (handler E d u).2.1 = Some (EvReplyText m)
    /\ reply_text E m = Raise e
    /\ (m = PleaseWait \/ m = InvalidUrl \/ exists e', m = ErrorReply e').
Proof.
  all_runs E d u; cbn [fst snd].
  - intros Hr. exists PleaseWait. auto.
  - intros Hr. exists InvalidUrl. auto.
  - intros Hr. exists (ErrorReply err). repeat split; eauto.
  - destruct (reply_text E CouldNotFetch) as [[]|e0]; pipeline_step;
      [discriminate|].
    intros Hr. exists (ErrorReply e0). repeat split; eauto.
  - intros Hr. exists (ErrorReply err). repeat split; eauto.
  - destruct (reply_text E (FileTooLarge _)) as [[]|e0]; pipeline_step;
      [discriminate|].
    intros Hr. exists (ErrorReply e0). repeat split; eauto.
  - intros Hr. exists (ErrorReply err). repeat split; eauto.
  - intros Hr. exists (ErrorReply err). repeat split; eauto.
  - discriminate.
Qed.

Ltac in_trace :=
  repeat first [apply list_elem_of_here | apply list_elem_of_further].

Ltac never_in_trace :=
  let H := fresh "Hin" in intros H; exfalso; revert H; not_in_trace.

Lemma lstrip_head (s : Str.t) (c : N) :
  head (Str.lstrip s) = Some c -> Str.isspace c = false.
Proof.
  induction s as [|x s IH]; simpl; [discriminate|].
  destruct (Str.isspace x) eqn:Hx; [exact IH|].
  simpl. intros [= <-]. exact Hx.
Qed.

Lemma lstrip_last (s : Str.t) :
  Str.lstrip s <> [] -> last (Str.lstrip s) = last s.
Proof.
  induction s as [|x s IH]; simpl; [congruence|].
  destruct (Str.isspace x); [|reflexivity].
  intros Hne. rewrite (IH Hne).
  destruct s as [|y s]; [simpl in Hne; congruence | reflexivity].
Qed.

Lemma strip_last (s : Str.t) (c : N) :
  last (Str.strip s) = Some c -> Str.isspace c = false.
Proof.
  unfold Str.strip. rewrite last_reverse. apply lstrip_head.
Qed.

Lemma strip_head (s : Str.t) (c : N) :
  head (Str.strip s) = Some c -> Str.isspace c = false.
Proof.
  unfold Str.strip. rewrite head_reverse. intros Hlast.
  assert (Str.lstrip (reverse (Str.lstrip s)) <> []) as Hne
    by (intros Heq; rewrite Heq in Hlast; discriminate).
  rewrite (lstrip_last _ Hne), last_reverse in Hlast.
  exact (lstrip_head s c Hlast).
Qed.

Lemma startswith_prefix (s p : Str.t) :
  Str.startswith s p = true <-> exists rest, s = p ++ rest.
Proof.
  revert s. induction p as [|a p IH]; intros [|b s]; simpl.
  - split; eauto.
  - split; eauto.
  - split; [discriminate | intros [rest Heq]; discriminate].
  - rewrite andb_true_iff, N.eqb_eq, IH. split.
    + intros [-> [rest ->]]. eauto.
    + intros [rest [= -> ->]]. eauto.
Qed.

(** X5: the resolver is only ever given the trimmed text of the message,
    and only when it starts with http; that argument has no white space
    at its end (nor at its start). *)
Theorem resolver_gets_trimmed_http_text
    (E : env) (d : limiter) (u : update) (url : Str.t) :
  EvResolve url ∈ (handler E d u).2.1 ->
  url = Str.strip (text u)
  /\ (exists rest, url = Str.lit "http" ++ rest)
  /\ (forall c, last url = Some c -> Str.isspace c = false)
  /\ (forall c, head url = Some c -> Str.isspace c = false).
Proof.
  intros Hin.
  assert (url = Str.strip (text u)
          /\ Str.startswith (Str.strip (text u)) (Str.lit "http") = true)
    as [-> Hhttp].
  { revert Hin. all_runs E d u; cbn [fst];
      try (destruct (reply_text E _); pipeline_step);
      intros Hin;
      repeat (apply elem_of_cons in Hin as [Hin|Hin];
              [first [discriminate Hin | injection Hin as ->; auto]|]);
      apply elem_of_nil in Hin; destruct Hin. }
  repeat split.
  - apply startswith_prefix, Hhttp.
  - apply strip_last.
  - apply strip_head.
Qed.

(** X6: every audio that is sent is named by a stem of at most 100
    characters without any character of the class, followed by .mp3. *)
Theorem audio_named_safely
    (E : env) (d : limiter) (u : update) (a : audio) :
  EvReplyAudio a ∈ (handler E d u).2.1 ->
  exists stem,
    audio_name a = stem ++ Str.lit ".mp3"
    /\ (length stem <= 100)%nat
    /\ forall c, c ∈ stem -> c ∉ forbidden.
Proof.
  assert (forall i data,
             a = {| audio_name := audio_name_of i; audio_data := data |} ->
             exists stem,
               audio_name a = stem ++ Str.lit ".mp3"
               /\ (length stem <= 100)%nat
               /\ forall c, c ∈ stem -> c ∉ forbidden) as Hname.
  { intros i data ->.
    exists (sanitize_filename (default (Str.lit "audio") (info_title i))).
    split; [reflexivity|]. split.
    - unfold sanitize_filename. rewrite length_take. lia.
    - intros c Hc Hbad.
      pose proof (sanitize_allowed (default (Str.lit "audio") (info_title i)))
        as Hall.
      rewrite Forall_forall in Hall. specialize (Hall c Hc).
      unfold is_forbidden in Hall. apply bool_decide_eq_false in Hall. tauto. }
  all_runs E d u; cbn [fst];
    try (destruct (reply_text E _); pipeline_step);
    intros Hin;
    repeat (apply elem_of_cons in Hin as [Hin|Hin];
            [first [discriminate Hin
                   | injection Hin as Hin; exact (Hname _ _ Hin)]|]);
    apply elem_of_nil in Hin; destruct Hin.
Qed.

(** X7: when the resolver returns nothing, or an info without a stream
    URL, the could-not-fetch reply is made and the HTTP client is never
    called. *)
Theorem no_stream_no_fetch
    (E : env) (d : limiter) (u : update) (o : option info) :
  rate_limited (handler E d u).2 = false ->
  Str.startswith (Str.strip (text u)) (Str.lit "http") = true ->
  download_audio_info E (Str.strip (text u)) = Ok o ->
  o ≫= info_url = None ->
  (handler E d u).2
  = try_except ([EvResolve (Str.strip (text u)); EvReplyText CouldNotFetch],
                reply_text E CouldNotFetch) (report_error E)
  /\ (forall audio_url, EvGet audio_url ∉ (handler E d u).2.1)
  /\ EvContent ∉ (handler E d u).2.1.
Proof.
  intros Hrate Hhttp Hinfo Hnone.
  rewrite (handle_message_valid int cfg E d u Hrate Hhttp).
  rewrite (body_no_stream int cfg E _ o Hinfo Hnone).
  split; [reflexivity|].
  unfold try_except, report_error.
  destruct (reply_text E CouldNotFetch) as [[]|e]; pipeline_step;
    (split; [intros audio_url|]; not_in_trace).
Qed.

(** X8: a content-length header that [int] cannot parse is not fatal: the
    exception is logged and reported to the user, and the body is not
    read. *)
Theorem malformed_header_reported
    (E : env) (d : limiter) (u : update)
    (i : info) (audio_url : Str.t) (r : response) (s e : Str.t) :
  fetched int cfg E d u i audio_url r ->
  content_length r = Some s -> s <> [] -> int s = Raise e ->
  (handler E d u).2
  = ([EvResolve (Str.strip (text u)); EvGet audio_url;
      EvLog (error_record e); EvReplyText (ErrorReply e)],
     reply_text E (ErrorReply e)).
Proof.
  intros (Hrate & Hhttp & Hinfo & Hurl & Hget & Hstatus) Hlen Hs Hint.
  rewrite (handle_message_valid int cfg E d u Hrate Hhttp).
  assert (too_large int cfg (content_length r) = ([], Raise e)) as Hbig.
  { rewrite Hlen. destruct s as [|c s]; [congruence|].
    unfold too_large. rewrite Hint. reflexivity. }
  rewrite (fetch_and_send_bad_header int cfg E _ i audio_url r
             Hinfo Hurl Hget Hstatus e Hbig).
  reflexivity.
Qed.

(** X9: with a header that parses to [n], the size-exceeded reply is made
    exactly when [n] is above MAX_FILE_SIZE_MB * 1024 * 1024, and the body
    is read exactly when it is not. *)
Theorem size_limit_iff
    (E : env) (d : limiter) (u : update)
    (i : info) (audio_url : Str.t) (r : response) (s : Str.t) (n : Z) :
  fetched int cfg E d u i audio_url r ->
  content_length r = Some s -> s <> [] -> int s = Ok n ->
  (EvReplyText (FileTooLarge (MAX_FILE_SIZE_MB cfg)) ∈ (handler E d u).2.1
   <-> MAX_FILE_SIZE_MB cfg * 1024 * 1024 < n)
  /\ (EvContent ∈ (handler E d u).2.1
      <-> n <= MAX_FILE_SIZE_MB cfg * 1024 * 1024).
Proof.
  intros (Hrate & Hhttp & Hinfo & Hurl & Hget & Hstatus) Hlen Hs Hint.
  rewrite (handle_message_valid int cfg E d u Hrate Hhttp).
  pose proof (too_large_header int cfg s n Hs Hint) as Hbig.
  rewrite <- Hlen in Hbig.
  destruct (Z.ltb_spec (MAX_FILE_SIZE_MB cfg * 1024 * 1024) n) as [Hlt|Hle].
  - rewrite (fetch_and_send_too_large int cfg E _ i audio_url r
               Hinfo Hurl Hget Hstatus Hbig).
    unfold try_except, report_error.
    destruct (reply_text E (FileTooLarge _)) as [[]|e]; pipeline_step;
      (split; split;
       [intros _; exact Hlt | intros _; in_trace | never_in_trace
       | intros; lia]).
  - destruct (content r) as [data|e] eqn:Hbody.
    + rewrite (fetch_and_send_body int cfg E _ i audio_url r
                 Hinfo Hurl Hget Hstatus data Hbig Hbody).
      cbv zeta. unfold try_except, report_error.
      destruct (reply_audio E _) as [[]|e]; pipeline_step;
        (split; split;
         [never_in_trace | intros; lia | intros _; exact Hle
         | intros _; in_trace]).
    + rewrite (fetch_and_send_no_body int cfg E _ i audio_url r
                 Hinfo Hurl Hget Hstatus e Hbig Hbody).
      unfold try_except, report_error. pipeline_step.
      split; split;
        [never_in_trace | intros; lia | intros _; exact Hle
        | intros _; in_trace].
Qed.

(** X10: when every collaborator answers and the size test passes, the run
    is: resolve, request, read the body, send it under the sanitized
    title with .mp3, log the sanitized title; and the handler returns. *)
Theorem success_run
    (E : env) (d : limiter) (u : update)
    (i : info) (audio_url : Str.t) (r : response) (data : list Byte.byte) :
  fetched int cfg E d u i audio_url r ->
  too_large int cfg (content_length r) = ([], Ok false) ->
  content r = Ok data ->
  reply_audio E {| audio_name := audio_name_of i; audio_data := data |}
  = Ok () ->
  (handler E d u).2
  = ([EvResolve (Str.strip (text u)); EvGet audio_url; EvContent;
      EvReplyAudio {| audio_name := audio_name_of i; audio_data := data |};
      EvLog (sent_audio
               (sanitize_filename (default (Str.lit "audio") (info_title i))))],
     Ok ()).
Proof.
  intros (Hrate & Hhttp & Hinfo & Hurl & Hget & Hstatus) Hbig Hbody Hsend.
  rewrite (handle_message_valid int cfg E d u Hrate Hhttp).
  rewrite (fetch_and_send_body int cfg E _ i audio_url r
             Hinfo Hurl Hget Hstatus data Hbig Hbody).
  cbv zeta. rewrite Hsend. reflexivity.
Qed.

(** ** The table across requests *)

Lemma handler_table (E : env) (d : limiter) (u : update) :
  (handler E d u).1
  = if rate_limited (handler E d u).2
    then (getitem d (user_id u)).2
    else <[user_id u := current_time u]> d.
Proof.
  destruct (rate_limited (handler E d u).2) eqn:H.
  - exact (limited_table int cfg E d u H).
  - exact (passed_table int cfg E d u H).
Qed.

(** X11: handling an update of one user leaves the entry of every other
    user as it was, present or absent. *)
Theorem other_users_untouched (E : env) (d : limiter) (u : update) (k : Z) :
  k <> user_id u -> (handler E d u).1 !! k = d !! k.
Proof.
  intros Hne. rewrite handler_table.
  destruct (rate_limited (handler E d u).2).
  - apply getitem_lookup_ne. congruence.
  - apply lookup_insert_ne. congruence.
Qed.

Lemma getitem_dom (d : limiter) (k : Z) :
  dom (getitem d k).2 = {[k]} ∪ dom d.
Proof.
  unfold getitem. destruct (d !! k) as [v|] eqn:Hk; cbn [snd].
  - apply (elem_of_dom_2 d) in Hk. symmetry.
    apply subseteq_union_1_L, singleton_subseteq_l, Hk.
  - apply dom_insert_L.
Qed.

(** X12: no entry is ever removed, and after any update, rejected ones
    included, the sender has an entry: the keys of the table grow by
    exactly the sender. *)
Theorem table_grows_by_sender (E : env) (d : limiter) (u : update) :
  dom (handler E d u).1 = {[user_id u]} ∪ dom d.
Proof.
  rewrite handler_table.
  destruct (rate_limited (handler E d u).2).
  - apply getitem_dom.
  - apply dom_insert_L.
Qed.

(** X13: the rate decision and the table that is left depend on the table,
    the sender and the arrival time only: not on the text of the message
    and not on what the collaborators do. *)
Theorem limiter_independent_of_collaborators
    (E E' : env) (d : limiter) (u u' : update) :
  user_id u = user_id u' -> current_time u = current_time u' ->
  rate_limited (handler E d u).2 = rate_limited (handler E' d u').2
  /\ (handler E d u).1 = (handler E' d u').1.
Proof.
  intros Hid Htime.
  assert (rate_limited (handler E d u).2 = rate_limited (handler E' d u').2)
    as Hsame.
  { rewrite !rate_limited_check, Hid, Htime. reflexivity. }
  split; [exact Hsame|].
  rewrite !handler_table, Hsame, Hid, Htime. reflexivity.
Qed.

(** X14: after a request that passed, the next request of the same user is
    rejected exactly when it arrives less than a window later; the
    rejected request gets the wait reply only and leaves the table as it
    is, entry for entry. *)
Theorem retry_within_window
    (E E' : env) (d : limiter) (u u' : update) :
  rate_limited (handler E d u).2 = false ->
  user_id u' = user_id u ->
  let d1 := (handler E d u).1 in
  (rate_limited (handler E' d1 u').2 = true
   <-> (current_time u' - current_time u
        < inject_Z (RATE_LIMIT_SECONDS cfg))%Q)
  /\ (rate_limited (handler E' d1 u').2 = true ->
      (handler E' d1 u').1 = d1
      /\ (handler E' d1 u').2
         = ([EvReplyText PleaseWait], reply_text E' PleaseWait)).
Proof.
  intros Hpass Hid d1.
  assert (d1 !! user_id u' = Some (current_time u)) as Hentry.
  { unfold d1. rewrite (passed_table int cfg E d u Hpass), Hid.
    apply lookup_insert_eq. }
  split.
  - rewrite rate_limited_check, Qltb_true. unfold last_request.
    rewrite Hentry. reflexivity.
  - intros Hrej. split.
    + rewrite (limited_table int cfg E' d1 u' Hrej).
      rewrite (getitem_present _ _ _ Hentry). reflexivity.
    + rewrite rate_limited_check in Hrej.
      rewrite (handle_message_limited int cfg E' d1 u' Hrej). reflexivity.
Qed.

(** X15: a window of zero or less switches the limiter off for a clock
    that does not run backwards: a request that arrives no earlier than
    the time recorded for its sender passes. *)
Theorem no_window_no_limit (E : env) (d : limiter) (u : update) :
  RATE_LIMIT_SECONDS cfg <= 0 ->
  (last_request d (user_id u) <= current_time u)%Q ->
  rate_limited (handler E d u).2 = false.
Proof.
  intros HW Hclock. rewrite rate_limited_check, Qltb_false.
  assert (inject_Z (RATE_LIMIT_SECONDS cfg) <= 0)%Q as HW'.
  { change 0%Q with (inject_Z 0). rewrite <- Zle_Qle. exact HW. }
  lra.
Qed.

Lemma table_after_cons (d : limiter) (E : env) (u : update)
    (reqs : list (env * update)) :
  table_after int cfg d ((E, u) :: reqs)
  = table_after int cfg (handler E d u).1 reqs.
Proof. reflexivity. Qed.

(** One more handled update in front of a history. *)
Lemma history_step (E : env) (d : limiter) (u : update) (k : Z)
    (outs : list (update * M unit)) :
  default (last_request d k)
    (last (passed_times k ((u, (handler E d u).2) :: outs)))
  = default (last_request (handler E d u).1 k) (last (passed_times k outs)).
Proof.
  unfold passed_times at 1. cbn [omap list_omap]. fold (passed_times k outs).
  destruct (last (passed_times k outs)) as [t|] eqn:Hlast.
  - destruct (bool_decide (user_id u = k)
              && negb (rate_limited (handler E d u).2));
      [|rewrite Hlast; reflexivity].
    apply last_Some in Hlast as [l ->].
    rewrite app_comm_cons, last_snoc. reflexivity.
  - apply last_None in Hlast. rewrite Hlast. cbn [default].
    unfold last_request. rewrite handler_table.
    destruct (bool_decide (user_id u = k)) eqn:Hk;
      [apply bool_decide_eq_true in Hk | apply bool_decide_eq_false in Hk];
      destruct (rate_limited (handler E d u).2) eqn:Hrate;
      cbn [andb negb last default].
    + subst k. symmetry.
      apply (getitem_last_request d (user_id u) (user_id u)).
    + subst k. rewrite lookup_insert_eq. reflexivity.
    + rewrite getitem_lookup_ne by exact Hk. reflexivity.
    + rewrite lookup_insert_ne by exact Hk. reflexivity.
Qed.

(** X16: after a session the time the check reads for a user is the
    arrival time of the last request of that user that passed the rate
    check, and what it was before the session when none passed. *)
Theorem table_holds_last_passed
    (reqs : list (env * update)) (d : limiter) (k : Z) :
  last_request (table_after int cfg d reqs) k
  = default (last_request d k) (last (passed_times k (run int cfg d reqs))).
Proof.
  revert d. induction reqs as [|[E u] reqs IH]; intros d; [reflexivity|].
  rewrite table_after_cons, run_cons, history_step. apply IH.
Qed.

(** X22: in a session, a request is rejected by the rate check exactly
    when it arrives less than a window after the last earlier request of
    its sender that passed, or after the time the table had for the
    sender when the session began if none passed. *)
Theorem session_decision
    (reqs : list (env * update)) (d : limiter) (j : nat)
    (E : env) (u : update) :
  reqs !! j = Some (E, u) ->
  exists out,
    run int cfg d reqs !! j = Some (u, out)
    /\ (rate_limited out = true
        <-> (current_time u
             - default (last_request d (user_id u))
                 (last (passed_times (user_id u)
                          (run int cfg d (take j reqs))))
             < inject_Z (RATE_LIMIT_SECONDS cfg))%Q).
Proof.
  revert d j. induction reqs as [|[E0 u0] reqs IH]; intros d [|j] Hj;
    try discriminate Hj.
  - injection Hj as -> ->. exists (handler E d u).2.
    rewrite run_cons. split; [reflexivity|].
    rewrite rate_limited_check, Qltb_true. reflexivity.
  - destruct (IH (handler E0 d u0).1 j Hj) as (out & Hrun & Hiff).
    exists out. rewrite run_cons. split; [exact Hrun|].
    rewrite Hiff. cbn [take]. rewrite run_cons, history_step. reflexivity.
Qed.

(** X17: a session adds to the table exactly the users it heard from,
    whether their requests passed or not, and removes none. *)
Theorem session_table_keys (reqs : list (env * update)) (d : limiter) :
  dom (table_after int cfg d reqs)
  = dom d ∪ list_to_set ((fun x => user_id x.2) <$> reqs).
Proof.
  revert d. induction reqs as [|[E u] reqs IH]; intros d.
  - cbn [fmap list_fmap list_to_set]. rewrite (right_id_L ∅ (∪)). reflexivity.
  - rewrite table_after_cons, IH, handler_table.
    assert (dom (if rate_limited (handler E d u).2
                 then (getitem d (user_id u)).2
                 else <[user_id u := current_time u]> d)
            = {[user_id u]} ∪ dom d) as ->
      by (destruct (rate_limited _); [apply getitem_dom | apply dom_insert_L]).
    cbn [fmap list_fmap list_to_set snd].
    rewrite (comm_L (∪) {[user_id u]} (dom d)), (assoc_L (∪)). reflexivity.
Qed.

(** X23: when the handler returns normally, the last reply it made was
    delivered. *)
Theorem normal_return_means_delivered
    (E : env) (d : limiter) (u : update) :
  (handler E d u).2.2 = Ok () ->
  exists rp,
    last (replies (handler E d u).2.1) = Some rp
    /\ send_outcome E rp = Ok ().
Proof.
  all_runs E d u; cbn [fst snd].
  - intros Hr. exists (TextReply PleaseWait). auto.
  - intros Hr. exists (TextReply InvalidUrl). auto.
  - intros Hr. exists (TextReply (ErrorReply err)). auto.
  - destruct (reply_text E CouldNotFetch) as [[]|e0] eqn:Hsend; pipeline_step.
    + intros _. exists (TextReply CouldNotFetch). auto.
    + intros Hr. exists (TextReply (ErrorReply e0)). auto.
  - intros Hr. exists (TextReply (ErrorReply err)). auto.
  - destruct (reply_text E (FileTooLarge _)) as [[]|e0] eqn:Hsend;
      pipeline_step.
    + intros _. exists (TextReply (FileTooLarge (MAX_FILE_SIZE_MB cfg))). auto.
    + intros Hr. exists (TextReply (ErrorReply e0)). auto.
  - intros Hr. exists (TextReply (ErrorReply err)). auto.
  - intros Hr. exists (TextReply (ErrorReply err)). auto.
  - intros _. eexists (AudioReply _). split; [reflexivity | exact Hsend].
Qed.

End Runs.

(** ** More on [sanitize_filename] *)

Lemma re_sub_app (s t : Str.t) :
  re_sub_forbidden (s ++ t) = re_sub_forbidden s ++ re_sub_forbidden t.
Proof. unfold re_sub_forbidden. apply fmap_app. Qed.

Lemma re_sub_length (s : Str.t) : length (re_sub_forbidden s) = length s.
Proof. unfold re_sub_forbidden. apply length_fmap. Qed.

(** X18: sanitizing a concatenation is sanitizing the parts, joined and cut
    again; so what follows the first 100 characters of a title never
    shows in the file name. *)
Theorem sanitize_filename_app (s t : Str.t) :
  sanitize_filename (s ++ t)
  = take 100 (sanitize_filename s ++ sanitize_filename t)
  /\ ((100 <= length s)%nat ->
      sanitize_filename (s ++ t) = sanitize_filename s).
Proof.
  unfold sanitize_filename. rewrite re_sub_app. split.
  - rewrite !take_app, !take_take, length_take, re_sub_length.
    destruct (decide (100 <= length s)%nat) as [Hlong|Hshort].
    + replace (100 - length s)%nat with 0%nat by lia.
      replace (100 - Nat.min 100 (length s))%nat with 0%nat by lia.
      reflexivity.
    + replace (100 - Nat.min 100 (length s))%nat with (100 - length s)%nat
        by lia.
      do 2 f_equal. lia.
  - intros Hlong. rewrite take_app, re_sub_length.
    replace (100 - length s)%nat with 0%nat by lia.
    apply app_nil_r.
Qed.

(** X19: the audio is named audio.mp3 when the info has no title, and it
    has an empty stem exactly when the title is the empty string. *)
Theorem audio_name_without_title (i : info) :
  (info_title i = None -> audio_name_of i = Str.lit "audio.mp3")
  /\ (audio_name_of i = Str.lit ".mp3" <-> info_title i = Some []).
Proof.
  unfold audio_name_of. split.
  - intros ->. reflexivity.
  - split.
    + intros Heq.
      apply (f_equal length) in Heq. rewrite length_app in Heq.
      change (length (Str.lit ".mp3")) with 4%nat in Heq.
      destruct (info_title i) as [[|c s]|]; [reflexivity | | discriminate Heq].
      unfold sanitize_filename in Heq. cbn [default] in Heq.
      rewrite length_take, re_sub_length in Heq. simpl in Heq. lia.
    + intros ->. reflexivity.
Qed.

(** ** Start-up *)

(** X20: once the settings load, [main] refuses to start, printing the
    hint and leaving with status 1 before anything is set up, exactly
    when BOT_TOKEN is unset or is the placeholder; otherwise the
    application is built with the token of the environment. *)
Theorem startup_refused_iff
    (int : Str.t -> result Z) (env : Startup.environ) (cookies : bool)
    (s : Startup.settings) :
  Startup.load int env cookies = Ok s ->
  (Startup.main s = Startup.Refused Startup.refusal 1
   <-> env !! Str.lit "BOT_TOKEN" = None
       \/ env !! Str.lit "BOT_TOKEN" = Some Startup.placeholder)
  /\ (forall calls,
        Startup.main s = Startup.Serving calls ->
        exists token,
          env !! Str.lit "BOT_TOKEN" = Some token
          /\ Startup.BuildApplication token ∈ calls).
Proof.
  intros Hload.
  assert (Startup.TOKEN s
          = default Startup.placeholder (env !! Str.lit "BOT_TOKEN")) as Htoken.
  { unfold Startup.load in Hload.
    destruct (Startup.getenv_int int env _ 10); [|discriminate].
    destruct (Startup.getenv_int int env _ 50); [|discriminate].
    injection Hload as <-. reflexivity. }
  unfold Startup.main.
  destruct (env !! Str.lit "BOT_TOKEN") as [token|].
  - change (Startup.TOKEN s = token) in Htoken. rewrite Htoken.
    destruct (bool_decide_reflect (token = Startup.placeholder)) as [->|Hne].
    + split; [split; auto | intros calls; discriminate].
    + split.
      * split; [discriminate | intros [H | [= H]]; congruence].
      * intros calls [= <-]. exists token. split; [reflexivity|].
        do 3 apply list_elem_of_further. apply list_elem_of_here.
  - change (Startup.TOKEN s = Startup.placeholder) in Htoken. rewrite Htoken.
    rewrite bool_decide_eq_true_2 by reflexivity.
    split; [split; auto | intros calls; discriminate].
Qed.

Lemma getenv_int_raises
    (int : Str.t -> result Z) (env : Startup.environ) (key : Str.t)
    (dflt : Z) (e : Str.t) :
  Startup.getenv_int int env key dflt = Raise e
  <-> exists s, env !! key = Some s /\ int s = Raise e.
Proof.
  unfold Startup.getenv_int. destruct (env !! key) as [s|]; split.
  - eauto.
  - intros (s' & [= <-] & Hs). exact Hs.
  - discriminate.
  - intros (s' & [=] & _).
Qed.

(** X21: the settings fail to load exactly when RATE_LIMIT_SECONDS or
    MAX_FILE_SIZE_MB is set to something [int] rejects; when neither is
    set the window is 10 seconds and the size limit 50 MB. *)
Theorem settings_load
    (int : Str.t -> result Z) (env : Startup.environ) (cookies : bool) :
  ((exists e, Startup.load int env cookies = Raise e)
   <-> (exists s e, env !! Str.lit "RATE_LIMIT_SECONDS" = Some s
                    /\ int s = Raise e)
       \/ (exists s e, env !! Str.lit "MAX_FILE_SIZE_MB" = Some s
                       /\ int s = Raise e))
  /\ (env !! Str.lit "RATE_LIMIT_SECONDS" = None ->
      env !! Str.lit "MAX_FILE_SIZE_MB" = None ->
      exists s,
        Startup.load int env cookies = Ok s
        /\ Startup.limits s
           = {| RATE_LIMIT_SECONDS := 10; MAX_FILE_SIZE_MB := 50 |}).
Proof.
  split; [split|].
  - intros [e Hload]. unfold Startup.load in Hload.
    destruct (Startup.getenv_int int env (Str.lit "RATE_LIMIT_SECONDS") 10)
      as [rate|e1] eqn:Hrate.
    + destruct (Startup.getenv_int int env (Str.lit "MAX_FILE_SIZE_MB") 50)
        as [size|e2] eqn:Hsize; [discriminate|].
      right. apply getenv_int_raises in Hsize as (s & Hs & He). eauto.
    + left. apply getenv_int_raises in Hrate as (s & Hs & He). eauto.
  - unfold Startup.load.
    intros [(s & e & Hs & He) | (s & e & Hs & He)].
    + exists e.
      rewrite (proj2 (getenv_int_raises int env _ 10 e)) by eauto.
      reflexivity.
    + destruct (Startup.getenv_int int env (Str.lit "RATE_LIMIT_SECONDS") 10)
        as [rate|e1]; [|exists e1; reflexivity].
      exists e.
      rewrite (proj2 (getenv_int_raises int env _ 50 e)) by eauto.
      reflexivity.
  - intros Hrate Hsize. unfold Startup.load, Startup.getenv_int.
    rewrite Hrate, Hsize. eexists. split; reflexivity.
Qed.

(** * The further properties on the sample data *)

Ltac in_trace :=
  repeat first [apply list_elem_of_here | apply list_elem_of_further].

Lemma only_text_replies_escape_witness :
  exists m,
    last (handle_message int cfg blocked ∅ (upd now "hello")).2.1
    = Some (EvReplyText m)
    /\ reply_text blocked m = Raise (Str.lit "Forbidden")
    /\ (m = PleaseWait \/ m = InvalidUrl \/ exists e', m = ErrorReply e').
Proof.
  apply (only_text_replies_escape int cfg blocked ∅ (upd now "hello")
           (Str.lit "Forbidden")).
  reflexivity.
Defined.

Lemma resolver_gets_trimmed_http_text_witness :
  Str.lit "https://kukufm.com/show/1" = Str.strip (text (upd now link))
  /\ (exists rest,
        Str.lit "https://kukufm.com/show/1" = Str.lit "http" ++ rest)
  /\ (forall c, last (Str.lit "https://kukufm.com/show/1") = Some c ->
                Str.isspace c = false)
  /\ (forall c, head (Str.lit "https://kukufm.com/show/1") = Some c ->
                Str.isspace c = false).
Proof.
  apply (resolver_gets_trimmed_http_text int cfg (good None) ∅ (upd now link)).
  vm_compute. in_trace.
Defined.

Lemma audio_named_safely_witness :
  exists stem,
    audio_name_of song = stem ++ Str.lit ".mp3"
    /\ (length stem <= 100)%nat
    /\ forall c, c ∈ stem -> c ∉ forbidden.
Proof.
  apply (audio_named_safely int cfg (good None) ∅ (upd now link)
           {| audio_name := audio_name_of song; audio_data := body |}).
  vm_compute. in_trace.
Defined.

Lemma no_stream_no_fetch_witness :
  (handle_message int cfg no_stream ∅ (upd now link)).2
  = ([EvResolve (Str.strip (text (upd now link))); EvReplyText CouldNotFetch],
     Ok ())
  /\ (forall audio_url,
        EvGet audio_url ∉ (handle_message int cfg no_stream ∅ (upd now link)).2.1)
  /\ EvContent ∉ (handle_message int cfg no_stream ∅ (upd now link)).2.1.
Proof.
  apply (no_stream_no_fetch int cfg no_stream ∅ (upd now link) None);
    reflexivity.
Defined.

Lemma malformed_header_reported_witness :
  (handle_message int cfg (good (Some (Str.lit "abc"))) ∅ (upd now link)).2
  = ([EvResolve (Str.strip (text (upd now link))); EvGet stream;
      EvLog (error_record (Str.lit "invalid literal for int() with base 10"));
      EvReplyText
        (ErrorReply (Str.lit "invalid literal for int() with base 10"))],
     Ok ()).
Proof.
  apply (malformed_header_reported int cfg (good (Some (Str.lit "abc"))) ∅
           (upd now link) song stream (resp (Some (Str.lit "abc")))
           (Str.lit "abc")).
  - apply fetched_sample; reflexivity.
  - reflexivity.
  - discriminate.
  - reflexivity.
Defined.

Lemma size_limit_iff_witness :
  (EvReplyText (FileTooLarge 50)
   ∈ (handle_message int cfg (good over) ∅ (upd now link)).2.1
   <-> 50 * 1024 * 1024 < 52428801)
  /\ (EvContent ∈ (handle_message int cfg (good over) ∅ (upd now link)).2.1
      <-> 52428801 <= 50 * 1024 * 1024).
Proof.
  apply (size_limit_iff int cfg (good over) ∅ (upd now link) song stream
           (resp over) (Str.lit "52428801") 52428801).
  - apply fetched_sample; reflexivity.
  - reflexivity.
  - discriminate.
  - reflexivity.
Defined.

Lemma success_run_witness :
  (handle_message int cfg (good None) ∅ (upd now link)).2
  = ([EvResolve (Str.strip (text (upd now link))); EvGet stream; EvContent;
      EvReplyAudio {| audio_name := audio_name_of song; audio_data := body |};
      EvLog (sent_audio (Str.lit "a_b_c"))],
     Ok ()).
Proof.
  apply (success_run int cfg (good None) ∅ (upd now link) song stream
           (resp None) body).
  - apply fetched_sample; reflexivity.
  - reflexivity.
  - reflexivity.
  - reflexivity.
Defined.

Lemma other_users_untouched_witness :
  (handle_message int cfg (good None) {[ 8 := now ]} (upd now link)).1 !! 8
  = ({[ 8 := now ]} : limiter) !! 8.
Proof.
  apply (other_users_untouched int cfg (good None) {[ 8 := now ]}
           (upd now link) 8).
  discriminate.
Defined.

Lemma limiter_independent_of_collaborators_witness :
  rate_limited (handle_message int cfg (good None) ∅ (upd now link)).2
  = rate_limited (handle_message int cfg no_resolver ∅ (upd now "hello")).2
  /\ (handle_message int cfg (good None) ∅ (upd now link)).1
     = (handle_message int cfg no_resolver ∅ (upd now "hello")).1.
Proof.
  apply (limiter_independent_of_collaborators int cfg (good None) no_resolver
           ∅ (upd now link) (upd now "hello"));
    reflexivity.
Defined.

Lemma retry_within_window_witness :
  (now + 5 - now < inject_Z (RATE_LIMIT_SECONDS cfg))%Q
  /\ (handle_message int cfg (good None)
        (handle_message int cfg (good None) ∅ (upd now link)).1
        (upd (now + 5) link)).2
     = ([EvReplyText PleaseWait], Ok ()).
Proof.
  destruct (retry_within_window int cfg (good None) (good None) ∅
              (upd now link) (upd (now + 5) link))
    as [Hiff Hrejected]; [reflexivity | reflexivity |].
  split; [reflexivity|].
  apply Hrejected. apply Hiff. reflexivity.
Defined.

Lemma no_window_no_limit_witness :
  rate_limited
    (handle_message int cfg_off (good None) {[ 7 := now ]} (upd now link)).2
  = false.
Proof.
  apply (no_window_no_limit int cfg_off (good None) {[ 7 := now ]}
           (upd now link)).
  - vm_compute. discriminate.
  - vm_compute. discriminate.
Defined.

Lemma sanitize_filename_app_witness :
  sanitize_filename (replicate 100 (Str.cp "a") ++ Str.lit "/tail")
  = sanitize_filename (replicate 100 (Str.cp "a")).
Proof.
  apply (sanitize_filename_app (replicate 100 (Str.cp "a")) (Str.lit "/tail")).
  vm_compute. lia.
Defined.

Lemma audio_name_without_title_witness :
  audio_name_of {| info_url := Some stream; info_title := None |}
  = Str.lit "audio.mp3"
  /\ audio_name_of {| info_url := Some stream; info_title := Some [] |}
     = Str.lit ".mp3".
Proof.
  split.
  - apply (audio_name_without_title
             {| info_url := Some stream; info_title := None |}).
    reflexivity.
  - apply (audio_name_without_title
             {| info_url := Some stream; info_title := Some [] |}).
    reflexivity.
Defined.

Lemma startup_refused_iff_witness :
  exists token,
    token_only !! Str.lit "BOT_TOKEN" = Some token
    /\ Startup.BuildApplication token
       ∈ [Startup.SignalInt; Startup.SignalTerm; Startup.HealthThread;
          Startup.BuildApplication (Str.lit "123:abc");
          Startup.AddStartCommand; Startup.AddTextHandler;
          Startup.LogStarted; Startup.RunPolling].
Proof.
  refine (proj2 (startup_refused_iff int token_only false
                   {| Startup.TOKEN := Str.lit "123:abc";
                      Startup.limits := cfg;
                      Startup.COOKIES_FILE := None |} _) _ _).
  - reflexivity.
  - reflexivity.
Defined.

Lemma settings_load_witness :
  exists s,
    Startup.load int token_only true = Ok s
    /\ Startup.limits s
       = {| RATE_LIMIT_SECONDS := 10; MAX_FILE_SIZE_MB := 50 |}.
Proof.
  apply (settings_load int token_only true); reflexivity.
Defined.

Lemma session_decision_witness :
  exists out,
    run int cfg ∅ session !! 1%nat = Some (upd (now + 5) link, out)
    /\ (rate_limited out = true
        <-> (current_time (upd (now + 5) link)
             - default (last_request ∅ (user_id (upd (now + 5) link)))
                 (last (passed_times (user_id (upd (now + 5) link))
                          (run int cfg ∅ (take 1 session))))
             < inject_Z (RATE_LIMIT_SECONDS cfg))%Q).
Proof.
  apply (session_decision int cfg session ∅ 1 (good None) (upd (now + 5) link)).
  reflexivity.
Defined.

Lemma normal_return_means_delivered_witness :
  exists rp,
    last (replies (handle_message int cfg no_audio ∅ (upd now link)).2.1)
    = Some rp
    /\ send_outcome no_audio rp = Ok ().
Proof.
  apply (normal_return_means_delivered int cfg no_audio ∅ (upd now link)).
  reflexivity.
Defined.

Lemma render_kind_witness :
  same_kind (ErrorReply (Str.lit "Timed out")) (ErrorReply (Str.lit "Timed out")).
Proof.
  apply (render_kind (ErrorReply (Str.lit "Timed out"))
           (ErrorReply (Str.lit "Timed out"))).
  reflexivity.
Defined.
